(** * DataCleanse: the fuzzy record-deduplication engine of [src/test.py]

    A shallow embedding of [normalize], [neo_token_set_ratio] and
    [build_duplicate_df], and the properties of the engine that the
    specification states.

    Modelling conventions.
    - A Python [str] is a [string]; one [ascii] stands for one code point
      below 256 (Latin-1), a range closed under [str.lower].
    - A table cell is a [pyval]: [None] or a text value (the loader reads
      every column with [dtype=str]); the working frame also holds the
      integers of the index, in its column [ExcelRow].
    - A table is a list of column names and a list of rows; its index is the
      [RangeIndex] 0, 1, ... the loader builds and its column names are
      unique.
    - The working frame is a store from labels to cells: an assignment to a
      label the frame already has overwrites that column, so a mapped column
      named like a working column ([ExcelRow], [customer_name_norm], ...)
      is overwritten as in the source.
    - A column mapped to two logical fields is selected twice; on a table
      with rows pandas then fails at line 112 ([ValueError], cannot reindex
      on an axis with duplicate labels). On a table without rows the
      assignment takes another path through pandas, which is not followed
      here: the engine then ends in [Unmodelled].
    - [thefuzz.token_set_ratio], the ordering pandas' [sort_values] computes
      and the identifiers [uuid.uuid4] draws are not code of this repository:
      they are parameters of the engine. *)

From Stdlib Require Import ZArith QArith Lia Bool List Ascii String.
From Stdlib Require Import DecimalString.
From Stdlib Require Import Permutation Sorted.
Import ListNotations.

(** ** Python text primitives *)

Module PyText.

Local Open Scope string_scope.

(** Values a cell or an argument of [normalize] can hold. *)
Inductive pyval : Type :=
| PyNone
| PyStr (s : string)
| PyInt (n : Z).

(** [str(x)] *)
Definition py_str (v : pyval) : string :=
  match v with
  | PyNone => "None"
  | PyStr s => s
  | PyInt n => NilZero.string_of_int (Z.to_int n)
  end.

(** Truth value of a [str]: the empty string is falsy. *)
Definition truthy (s : string) : bool :=
  match s with
  | EmptyString => false
  | String _ _ => true
  end.

(** Truth value of an [Optional[str]]. *)
Definition truthy_opt (o : option string) : bool :=
  match o with
  | None => false
  | Some s => truthy s
  end.

Definition is_some {A : Type} (o : option A) : bool :=
  match o with
  | None => false
  | Some _ => true
  end.

Definition in_range (lo hi : nat) (c : ascii) : bool :=
  let n := nat_of_ascii c in (lo <=? n)%nat && (n <=? hi)%nat.

(** [str.isspace] on one code point, which is also the class [\s] of [re]
    for [str] patterns. *)
Definition py_isspace (c : ascii) : bool :=
  in_range 9 13 c || in_range 28 32 c
  || (nat_of_ascii c =? 133)%nat || (nat_of_ascii c =? 160)%nat.

(** [str.lower] on one code point. *)
Definition lower_char (c : ascii) : ascii :=
  if in_range 65 90 c
     || (in_range 192 222 c && negb (nat_of_ascii c =? 215)%nat)
  then ascii_of_nat (nat_of_ascii c + 32)
  else c.

Fixpoint py_lower (s : string) : string :=
  match s with
  | EmptyString => EmptyString
  | String c t => String (lower_char c) (py_lower t)
  end.

(** [str.lstrip()]: skip the leading whitespace. *)
Fixpoint py_lstrip (s : string) : string :=
  match s with
  | EmptyString => EmptyString
  | String c t => if py_isspace c then py_lstrip t else s
  end.

(** [str.rstrip()]: a character is kept unless it and everything after it
    is whitespace. *)
Fixpoint py_rstrip (s : string) : string :=
  match s with
  | EmptyString => EmptyString
  | String c t =>
      match py_rstrip t with
      | EmptyString => if py_isspace c then EmptyString else String c EmptyString
      | t' => String c t'
      end
  end.

(** [str.strip()] *)
Definition py_strip (s : string) : string := py_rstrip (py_lstrip s).

(** [re.sub("[...]", repl, s)] for a pattern that is one character class:
    every matching character is replaced. *)
Fixpoint re_sub_class (cls : ascii -> bool) (repl s : string) : string :=
  match s with
  | EmptyString => EmptyString
  | String c t =>
      if cls c then repl ++ re_sub_class cls repl t
      else String c (re_sub_class cls repl t)
  end.

(** [re.sub("[...]+", repl, s)]: the matcher is greedy, so a match extends
    over a maximal run of the class; [in_match] tells that the scan is inside
    a match whose replacement was already emitted. *)
Fixpoint re_sub_plus_from (cls : ascii -> bool) (repl : string)
         (in_match : bool) (s : string) : string :=
  match s with
  | EmptyString => EmptyString
  | String c t =>
      if cls c then
        if in_match then re_sub_plus_from cls repl true t
        else repl ++ re_sub_plus_from cls repl true t
      else String c (re_sub_plus_from cls repl false t)
  end.

Definition re_sub_plus (cls : ascii -> bool) (repl s : string) : string :=
  re_sub_plus_from cls repl false s.

(** The class [[^a-z0-9\s]]. *)
Definition not_alnum_space (c : ascii) : bool :=
  negb (in_range 97 122 c || in_range 48 57 c || py_isspace c).

(** [normalize], lines 79-83. *)
Definition normalize (text : pyval) : string :=
  let text := py_strip (py_lower (py_str text)) in
  let text := re_sub_class not_alnum_space " " text in
  let text := re_sub_plus py_isspace " " text in
  py_strip text.

(** [s[:n]] *)
Definition py_prefix (n : nat) (s : string) : string := substring 0 n s.

(** [s[0]], for a non-empty [s]; the engine guards the access. *)
Definition py_item0 (s : string) : string := substring 0 1 s.

(** *** The normalization policy as the specification words it *)

Definition keeps (c : ascii) : bool :=
  in_range 97 122 c || in_range 48 57 c || py_isspace c.

Fixpoint drop_while (p : ascii -> bool) (l : list ascii) : list ascii :=
  match l with
  | [] => []
  | c :: t => if p c then drop_while p t else l
  end.

(** Strip leading and trailing whitespace. *)
Definition trim (s : string) : string :=
  string_of_list_ascii
    (rev (drop_while py_isspace
            (rev (drop_while py_isspace (list_ascii_of_string s))))).

(** Replace every character outside {a-z, 0-9, whitespace} with a space. *)
Definition blank_out (s : string) : string :=
  string_of_list_ascii
    (map (fun c => if keeps c then c else " "%char) (list_ascii_of_string s)).

(** Collapse each run of consecutive whitespace to one space: a whitespace
    character followed by another one disappears, the last of a run becomes
    a space. *)
Fixpoint collapse (l : list ascii) : list ascii :=
  match l with
  | [] => []
  | c :: t =>
      if py_isspace c then
        match t with
        | c' :: _ => if py_isspace c' then collapse t else " "%char :: collapse t
        | [] => [" "%char]
        end
      else c :: collapse t
  end.

Definition collapse_ws (s : string) : string :=
  string_of_list_ascii (collapse (list_ascii_of_string s)).

Definition normalize_spec (s : string) : string :=
  trim (collapse_ws (blank_out (trim (py_lower s)))).

End PyText.

(** ** The engine *)

Module Engine.

Import PyText.
Local Open Scope string_scope.
Local Open Scope Z_scope.

(** *** Data model, lines 21-55 *)

Record DeduplicationColumnMap : Type := {
  customer_name : option string;
  address : option string;
  city : option string;
  country : option string;
  tpi : option string
}.

Record DuplicateRecordDetail : Type := {
  Row : Z;
  Name : option string;
  Address : option string;
  Name_score : option Z;
  Addr_score : option Z;
  Overall_score : Z;
  IsLowConfidence : bool;
  LLM_conf : option Q;
  uid : string
}.

Record MasterRecord : Type := {
  MasterRow : Z;
  MasterName : option string;
  MasterAddress : option string;
  DuplicateCount : Z;
  AvgSimilarity : Z;
  IsLowConfidenceGroup : bool;
  Duplicates : list DuplicateRecordDetail;
  master_uid : string
}.

(** The table: column labels and, per row, one cell per column. The index
    is the [RangeIndex] of the loader: row [i] has label [i]. *)
Record DataFrame : Type := {
  df_columns : list string;
  df_rows : list (list pyval)
}.

(** The exceptions the engine can raise: the two [ValueError]s of lines 94
    and 101, the [ValueError] of pandas at line 112 (cannot reindex on an
    axis with duplicate labels) and the [KeyError] of [work.loc]. The last
    constructor is not an exception: it marks the one run that is not
    followed, a column selected twice on a table without rows. *)
Inductive exn : Type :=
| MappedColumnNotFound (column : string) (available : list string)
| NoValidColumns
| DuplicateLabels
| KeyError (label : Z)
| Unmodelled.

Inductive result (A : Type) : Type :=
| Ok (a : A)
| Raise (e : exn).

Arguments Ok {A} a.
Arguments Raise {A} e.

Definition bind {A B : Type} (r : result A) (k : A -> result B) : result B :=
  match r with
  | Ok a => k a
  | Raise e => Raise e
  end.

Notation "x <- r ;; k" := (bind r (fun x => k))
  (at level 61, r at next level, right associativity).

(** A [for] loop whose body can raise. *)
Fixpoint for_each {S A : Type} (body : S -> A -> result S) (l : list A) (s : S)
  : result S :=
  match l with
  | [] => Ok s
  | x :: t => s' <- body s x ;; for_each body t s'
  end.

(** *** Numbers *)

(** [a / b] on integers: true division. The float Python computes is the
    double nearest to this quotient. *)
Definition py_truediv (a b : Z) : Q := inject_Z a / inject_Z b.

(** [round(x)]: to the nearest integer, a tie to the even one. Scores lie in
    0..100, so a quotient of a sum of scores that is a tie is a double and one
    that is not stays on its side of the tie when rounded to a double. *)
Definition py_round (x : Q) : Z :=
  let n := Qnum x in
  let d := Zpos (Qden x) in
  let f := n / d in
  let r := n mod d in
  if 2 * r <? d then f
  else if d <? 2 * r then f + 1
  else if Z.even f then f else f + 1.

Definition py_sum (l : list Z) : Z := fold_left Z.add l 0.

Definition py_len {A : Type} (l : list A) : Z := Z.of_nat (List.length l).

Definition py_max (l : list Z) : Z := fold_left Z.max l 0.

(** [x in l] for labels. *)
Definition mem (x : string) (l : list string) : bool :=
  existsb (String.eqb x) l.

(** [pd.notna] *)
Definition pd_notna (v : pyval) : bool :=
  match v with
  | PyNone => false
  | PyStr _ => true
  | PyInt _ => true
  end.

(** *** The working frame, lines 91-115 *)

Definition model_dump_values (col_map : DeduplicationColumnMap)
  : list (option string) :=
  [customer_name col_map; address col_map; city col_map; country col_map;
   tpi col_map].

Definition mapped_cols_from_user_file (col_map : DeduplicationColumnMap)
  : list string :=
  flat_map (fun val => match val with Some c => [c] | None => [] end)
           (model_dump_values col_map).

(** Lines 92-94. *)
Fixpoint validate_columns (columns mapped : list string) : result unit :=
  match mapped with
  | [] => Ok tt
  | user_col_name :: rest =>
      if mem user_col_name columns then validate_columns columns rest
      else Raise (MappedColumnNotFound user_col_name columns)
  end.

Definition cols_to_select (df : DataFrame) (col_map : DeduplicationColumnMap)
  : list string :=
  filter (fun c => mem c (df_columns df)) (mapped_cols_from_user_file col_map).

(** A row of [work]: its cells by label, after the assignments of lines
    104-115, and what the row holds under the five working labels. *)
Record WorkRow : Type := {
  cells : list (string * pyval);
  ExcelRow : Z;
  customer_name_norm : string;
  address_norm : string;
  city_norm : string;
  country_norm : string
}.

(** The cell of a table row under a column label; a row too short for the
    label holds the missing value there. *)
Fixpoint cell_of (columns : list string) (row : list pyval) (c : string)
  : pyval :=
  match columns, row with
  | k :: columns', v :: row' =>
      if String.eqb k c then v else cell_of columns' row' c
  | _, _ => PyNone
  end.

(** [r[c]] on a row of [work], [None] when [c] is not in the row. *)
Fixpoint series_get (cs : list (string * pyval)) (c : string) : option pyval :=
  match cs with
  | [] => None
  | (k, v) :: cs' => if String.eqb k c then Some v else series_get cs' c
  end.

(** [work[label] = v] for one row: the column is overwritten when the frame
    has the label, and added after the others when it has not. *)
Fixpoint set_item (label : string) (v : pyval) (cs : list (string * pyval))
  : list (string * pyval) :=
  match cs with
  | [] => [(label, v)]
  | (k, x) :: cs' =>
      if String.eqb k label then (k, v) :: cs'
      else (k, x) :: set_item label v cs'
  end.

(** Lines 110-115 for one logical field and one row: the value assigned to
    the field's normalized column, read from the row as it is by then. *)
Definition norm_column (user_column_name : option string)
           (cs : list (string * pyval)) : string :=
  match user_column_name with
  | Some c =>
      if truthy c && mem c (map fst cs) then
        match series_get cs c with
        | Some v => normalize v
        | None => EmptyString
        end
      else EmptyString
  | None => EmptyString
  end.

(** Lines 103-115 for one row, one assignment after the other. *)
Definition make_row (df : DataFrame) (col_map : DeduplicationColumnMap)
           (i : nat) (row : list pyval) : WorkRow :=
  let selected := cols_to_select df col_map in
  let cs := map (fun c => (c, cell_of (df_columns df) row c)) selected in
  let cs := set_item "ExcelRow" (PyInt (Z.of_nat i)) cs in
  let name_norm := norm_column (customer_name col_map) cs in
  let cs := set_item "customer_name_norm" (PyStr name_norm) cs in
  let addr_norm := norm_column (address col_map) cs in
  let cs := set_item "address_norm" (PyStr addr_norm) cs in
  let cty_norm := norm_column (city col_map) cs in
  let cs := set_item "city_norm" (PyStr cty_norm) cs in
  let ctry_norm := norm_column (country col_map) cs in
  let cs := set_item "country_norm" (PyStr ctry_norm) cs in
  {| cells := cs;
     ExcelRow := Z.of_nat i;
     customer_name_norm := name_norm;
     address_norm := addr_norm;
     city_norm := cty_norm;
     country_norm := ctry_norm |}.

(** Line 112 fails for a logical field whose column is selected twice:
    [work[user_column_name]] is then a frame of two columns, [apply] gives
    one value per column, and the assignment cannot align them with the
    rows. *)
Definition selected_twice (selected : list string)
           (user_column_name : option string) : bool :=
  match user_column_name with
  | Some c => truthy c && (2 <=? count_occ string_dec selected c)%nat
  | None => false
  end.

Definition reindex_fails (col_map : DeduplicationColumnMap)
           (selected : list string) : bool :=
  existsb (selected_twice selected)
          [customer_name col_map; address col_map; city col_map;
           country col_map].

Fixpoint make_rows (df : DataFrame) (col_map : DeduplicationColumnMap)
         (i : nat) (rows : list (list pyval)) : list WorkRow :=
  match rows with
  | [] => []
  | row :: rest => make_row df col_map i row :: make_rows df col_map (S i) rest
  end.

Definition make_work (df : DataFrame) (col_map : DeduplicationColumnMap)
  : list WorkRow :=
  make_rows df col_map 0 (df_rows df).

(** [work.loc[i]] *)
Definition loc (work : list WorkRow) (i : Z) : result WorkRow :=
  if i <? 0 then Raise (KeyError i)
  else match nth_error work (Z.to_nat i) with
       | Some r => Ok r
       | None => Raise (KeyError i)
       end.

(** *** Blocking, lines 120-140 *)

Definition name_prefix (col_map : DeduplicationColumnMap) (row : WorkRow)
  : string :=
  let customer_name_norm_col_exists := is_some (customer_name col_map) in
  let p :=
    if customer_name_norm_col_exists
       && pd_notna (PyStr (customer_name_norm row))
    then py_prefix 4 (customer_name_norm row)
    else "xxxx" in
  if negb (truthy p) then "xxxx" else p.

Definition city_prefix (col_map : DeduplicationColumnMap) (row : WorkRow)
  : string :=
  let city_norm_col_exists := is_some (city col_map) in
  if city_norm_col_exists && pd_notna (PyStr (city_norm row))
     && truthy (city_norm row)
  then py_item0 (city_norm row)
  else "y".

Definition block_key (col_map : DeduplicationColumnMap) (row : WorkRow)
  : string :=
  name_prefix col_map row ++ "_" ++ city_prefix col_map row.

(** [blocks.setdefault(key, []).append(i)] on a dict kept in insertion
    order. *)
Fixpoint setdefault_append (key : string) (i : Z)
         (blocks : list (string * list Z)) : list (string * list Z) :=
  match blocks with
  | [] => [(key, [i])]
  | (k, l) :: rest =>
      if String.eqb k key then (k, (l ++ [i])%list) :: rest
      else (k, l) :: setdefault_append key i rest
  end.

Definition build_blocks (col_map : DeduplicationColumnMap)
           (work : list WorkRow) : list (string * list Z) :=
  fold_left
    (fun blocks row => setdefault_append (block_key col_map row) (ExcelRow row) blocks)
    work [].

Record BlockStats : Type := {
  total_blocks : Z;
  max_block_size : Z;
  avg_block_size : Q;
  records_in_blocks : Z
}.

Definition block_sizes (blocks : list (string * list Z)) : list Z :=
  map (fun kv => py_len (snd kv)) blocks.

Definition make_block_stats (blocks : list (string * list Z)) : BlockStats :=
  {| total_blocks := py_len blocks;
     max_block_size :=
       match blocks with [] => 0 | _ => py_max (block_sizes blocks) end;
     avg_block_size :=
       match blocks with
       | [] => inject_Z 0
       | _ => py_truediv (py_sum (block_sizes blocks)) (py_len blocks)
       end;
     records_in_blocks := py_sum (block_sizes blocks) |}.

(** [itertools.combinations(l, 2)] *)
Fixpoint combinations2 {A : Type} (l : list A) : list (A * A) :=
  match l with
  | [] => []
  | x :: t => (map (fun y => (x, y)) t ++ combinations2 t)%list
  end.

(** *** Pairwise scoring and grouping, lines 142-198 *)

(** An entry of [master_records_dict]. *)
Record MasterEntry : Type := {
  entry_MasterRow : Z;
  entry_MasterName : option string;
  entry_MasterAddress : option string;
  entry_Duplicates : list DuplicateRecordDetail;
  entry_master_uid : string
}.

(** What the comparison loop mutates: the dict of masters, in insertion
    order, and the number of identifiers drawn so far. *)
Record LoopState : Type := {
  master_records_dict : list (Z * MasterEntry);
  uuids_drawn : nat
}.

(** The scores of a pair that passed both thresholds. *)
Record PairScores : Type := {
  name_s : Z;
  addr_s : Z;
  overall : Z
}.

Fixpoint dict_mem (key : Z) (d : list (Z * MasterEntry)) : bool :=
  match d with
  | [] => false
  | (k, _) :: rest => (k =? key) || dict_mem key rest
  end.

(** [d[key]["Duplicates"].append(dup)] *)
Fixpoint append_duplicate (key : Z) (dup : DuplicateRecordDetail)
         (d : list (Z * MasterEntry)) : list (Z * MasterEntry) :=
  match d with
  | [] => []
  | (k, e) :: rest =>
      if k =? key then
        (k, {| entry_MasterRow := entry_MasterRow e;
               entry_MasterName := entry_MasterName e;
               entry_MasterAddress := entry_MasterAddress e;
               entry_Duplicates := (entry_Duplicates e ++ [dup])%list;
               entry_master_uid := entry_master_uid e |}) :: rest
      else (k, e) :: append_duplicate key dup rest
  end.

(** [str(r[col]) if col and col in r else None] *)
Definition str_field (column : option string) (r : WorkRow) : option string :=
  match column with
  | Some c =>
      if truthy c then
        match series_get (cells r) c with
        | Some v => Some (py_str v)
        | None => None
        end
      else None
  | None => None
  end.

(** [take]: the rows of a frame at the positions of an indexer. *)
Definition take {A : Type} (indexer : list nat) (l : list A) : list A :=
  flat_map (fun i => match nth_error l i with Some x => [x] | None => [] end)
           indexer.

(** The identifiers one invocation draws from [uuid.uuid4], in order. *)
Definition uuid_source : Type := nat -> string.

Section WithExternals.

(** [thefuzz.fuzz.token_set_ratio] *)
Variable token_set_ratio : string -> string -> Z.

(** The indexer pandas computes from the key column for
    [sort_values(..., ascending=False)]. *)
Variable argsort_desc : list Z -> list nat.

(** Lines 73-76. *)
Definition neo_token_set_ratio (a b : pyval) : Z :=
  match a, b with
  | PyNone, _ => 0
  | _, PyNone => 0
  | _, _ => token_set_ratio (py_str a) (py_str b)
  end.

(** Lines 152-154 and 160-162: the score of one mapped field. *)
Definition field_score (column : option string) (r1 r2 : WorkRow) : Z :=
  match column with
  | Some c =>
      if truthy c then
        match series_get (cells r1) c, series_get (cells r2) c with
        | Some a, Some b => neo_token_set_ratio a b
        | _, _ => 0
        end
      else 0
  | None => 0
  end.

(** Lines 166-170. *)
Definition overall_score (col_map : DeduplicationColumnMap) (name_s addr_s : Z)
  : Z :=
  let scores_present :=
    ((if truthy_opt (customer_name col_map) then [name_s] else []) ++
     (if truthy_opt (address col_map) then [addr_s] else []))%list in
  match scores_present with
  | [] => 0
  | _ => py_round (py_truediv (py_sum scores_present) (py_len scores_present))
  end.

(** Lines 152-173: [None] stands for [continue]. *)
Definition score_pair (col_map : DeduplicationColumnMap) (r1 r2 : WorkRow)
  : option PairScores :=
  let name_s := field_score (customer_name col_map) r1 r2 in
  if truthy_opt (customer_name col_map) && (name_s <? 70) then None
  else
    let addr_s := field_score (address col_map) r1 r2 in
    let overall := overall_score col_map name_s addr_s in
    if overall <? 70 then None
    else Some {| name_s := name_s; addr_s := addr_s; overall := overall |}.

(** Lines 176-186. *)
Definition dup_detail (col_map : DeduplicationColumnMap) (r2 : WorkRow)
           (sc : PairScores) (u : string) : DuplicateRecordDetail :=
  {| Row := ExcelRow r2 + 2;
     Name := str_field (customer_name col_map) r2;
     Address := str_field (address col_map) r2;
     Name_score :=
       if truthy_opt (customer_name col_map) then Some (name_s sc) else None;
     Addr_score :=
       if truthy_opt (address col_map) then Some (addr_s sc) else None;
     Overall_score := overall sc;
     IsLowConfidence := overall sc <? 90;
     LLM_conf := None;
     uid := u |}.

(** Lines 190-197. *)
Definition new_master (col_map : DeduplicationColumnMap) (r1 : WorkRow)
           (master_row_excel_num : Z) (u : string) : MasterEntry :=
  {| entry_MasterRow := master_row_excel_num;
     entry_MasterName := str_field (customer_name col_map) r1;
     entry_MasterAddress := str_field (address col_map) r1;
     entry_Duplicates := [];
     entry_master_uid := u |}.

(** The body of the loop over the pairs of a block, lines 149-198. *)
Definition compare_pair (uuids : uuid_source) (col_map : DeduplicationColumnMap)
           (work : list WorkRow) (st : LoopState) (pair : Z * Z)
  : result LoopState :=
  r1 <- loc work (fst pair) ;;
  r2 <- loc work (snd pair) ;;
  match score_pair col_map r1 r2 with
  | None => Ok st
  | Some sc =>
      let n := uuids_drawn st in
      let dup := dup_detail col_map r2 sc (uuids n) in
      let master_row_excel_num := ExcelRow r1 + 2 in
      let d := master_records_dict st in
      if dict_mem master_row_excel_num d then
        Ok {| master_records_dict := append_duplicate master_row_excel_num dup d;
              uuids_drawn := S n |}
      else
        let e := new_master col_map r1 master_row_excel_num (uuids (S n)) in
        Ok {| master_records_dict :=
                append_duplicate master_row_excel_num dup
                                 (d ++ [(master_row_excel_num, e)])%list;
              uuids_drawn := S (S n) |}
  end.

(** Lines 145-148. *)
Definition compare_block (uuids : uuid_source) (col_map : DeduplicationColumnMap)
           (work : list WorkRow) (st : LoopState) (block_indices : list Z)
  : result LoopState :=
  if py_len block_indices <? 2 then Ok st
  else for_each (compare_pair uuids col_map work) (combinations2 block_indices) st.

(** *** Finalization and ordering, lines 200-223 *)

Definition finalize (m_data : MasterEntry) : MasterRecord :=
  let sims := map Overall_score (entry_Duplicates m_data) in
  let avg_sim :=
    match sims with
    | [] => 0
    | _ => py_round (py_truediv (py_sum sims) (py_len sims))
    end in
  {| MasterRow := entry_MasterRow m_data;
     MasterName := entry_MasterName m_data;
     MasterAddress := entry_MasterAddress m_data;
     DuplicateCount := py_len (entry_Duplicates m_data);
     AvgSimilarity := avg_sim;
     IsLowConfidenceGroup := existsb IsLowConfidence (entry_Duplicates m_data);
     Duplicates := entry_Duplicates m_data;
     master_uid := entry_master_uid m_data |}.

Definition sort_values_AvgSimilarity_desc (masters_list : list MasterRecord)
  : list MasterRecord :=
  take (argsort_desc (map AvgSimilarity masters_list)) masters_list.

(** [build_duplicate_df], lines 86-223. *)
Definition build_duplicate_df (uuids : uuid_source) (df : DataFrame)
           (col_map : DeduplicationColumnMap)
  : result (list MasterRecord * BlockStats) :=
  _ <- validate_columns (df_columns df) (mapped_cols_from_user_file col_map) ;;
  match cols_to_select df col_map with
  | [] => Raise NoValidColumns
  | _ :: _ =>
      if reindex_fails col_map (cols_to_select df col_map) then
        match df_rows df with
        | [] => Raise Unmodelled
        | _ :: _ => Raise DuplicateLabels
        end
      else
        let work := make_work df col_map in
        let blocks := build_blocks col_map work in
        let block_stats := make_block_stats blocks in
        st <- for_each (compare_block uuids col_map work) (map snd blocks)
                       {| master_records_dict := []; uuids_drawn := 0 |} ;;
        let masters_list :=
          map (fun kv => finalize (snd kv)) (master_records_dict st) in
        let results_df :=
          match masters_list with
          | [] => []
          | _ :: _ => sort_values_AvgSimilarity_desc masters_list
          end in
        Ok (results_df, block_stats)
  end.

End WithExternals.

End Engine.

(** ** Vocabulary of the properties *)

Module Props.

Import PyText Engine.
Local Open Scope Z_scope.

(** What pandas guarantees of the indexer of a descending sort: it is a
    permutation of the positions, and the keys do not increase along it. *)
Definition argsort_contract (argsort_desc : list Z -> list nat) : Prop :=
  forall keys : list Z,
    Permutation (argsort_desc keys) (seq 0 (List.length keys)) /\
    StronglySorted Z.ge (map (fun i => nth i keys 0) (argsort_desc keys)).

(** A duplicate record and a group without their identifiers. *)
Definition erase_uid (d : DuplicateRecordDetail) : DuplicateRecordDetail :=
  {| Row := Row d; Name := Name d; Address := Address d;
     Name_score := Name_score d; Addr_score := Addr_score d;
     Overall_score := Overall_score d; IsLowConfidence := IsLowConfidence d;
     LLM_conf := LLM_conf d; uid := EmptyString |}.

Definition erase_master_uids (m : MasterRecord) : MasterRecord :=
  {| MasterRow := MasterRow m; MasterName := MasterName m;
     MasterAddress := MasterAddress m; DuplicateCount := DuplicateCount m;
     AvgSimilarity := AvgSimilarity m;
     IsLowConfidenceGroup := IsLowConfidenceGroup m;
     Duplicates := map erase_uid (Duplicates m);
     master_uid := EmptyString |}.

Definition erase_uids (out : result (list MasterRecord * BlockStats))
  : result (list MasterRecord * BlockStats) :=
  match out with
  | Ok (groups, stats) => Ok (map erase_master_uids groups, stats)
  | Raise e => Raise e
  end.

(** The pairs the comparison loop visits, in order. *)
Definition compared_pairs (blocks : list (string * list Z)) : list (Z * Z) :=
  flat_map (fun kv => if py_len (snd kv) <? 2 then []
                      else combinations2 (snd kv)) blocks.

(** The blocks an index was put in. *)
Definition blocks_of (i : Z) (blocks : list (string * list Z))
  : list (string * list Z) :=
  filter (fun kv => existsb (Z.eqb i) (snd kv)) blocks.

(** The two prefixes of a block key as the specification words them. *)
Definition spec_name_prefix (col_map : DeduplicationColumnMap) (row : WorkRow)
  : string :=
  match customer_name col_map, customer_name_norm row with
  | Some _, String _ _ => py_prefix 4 (customer_name_norm row)
  | _, _ => "xxxx"%string
  end.

Definition spec_city_prefix (col_map : DeduplicationColumnMap) (row : WorkRow)
  : string :=
  match city col_map, city_norm row with
  | Some _, String c _ => String c EmptyString
  | _, _ => "y"%string
  end.

(** The mean of a non-empty list of scores. *)
Definition mean (l : list Z) : Q := py_truediv (py_sum l) (py_len l).

(** The column mapping with no logical field mapped. *)
Definition no_field_mapped : DeduplicationColumnMap :=
  {| customer_name := None; address := None; city := None; country := None;
     tpi := None |}.

Definition zero_block_stats : BlockStats :=
  {| total_blocks := 0; max_block_size := 0; avg_block_size := inject_Z 0;
     records_in_blocks := 0 |}.


(** *** Vocabulary of the proofs *)

(** Two runs of a loop whose iterations keep a relation between the states
    end in related results. *)
Definition related {S : Type} (R : S -> S -> Prop) (r1 r2 : result S) : Prop :=
  match r1, r2 with
  | Ok s1, Ok s2 => R s1 s2
  | Raise e1, Raise e2 => e1 = e2
  | _, _ => False
  end.

(** A frame whose rows carry their position as [ExcelRow]. *)
Definition indexed (work : list WorkRow) : Prop :=
  forall j r, nth_error work j = Some r -> ExcelRow r = Z.of_nat j.

(** What holds of the blocks once the rows [p] are distributed: keys are
    distinct, every block lists, in increasing order, rows whose key is the
    block's, and every row is listed in the block of its key. *)
Definition blocks_inv (col_map : DeduplicationColumnMap) (p : list WorkRow)
           (b : list (string * list Z)) : Prop :=
  NoDup (map fst b) /\
  (forall k idxs, In (k, idxs) b ->
     StronglySorted Z.lt idxs /\
     forall i, In i idxs ->
       exists r, In r p /\ ExcelRow r = i /\ block_key col_map r = k) /\
  (forall r, In r p ->
     exists idxs, In (block_key col_map r, idxs) b /\ In (ExcelRow r) idxs).

(** The duplicate [d], filed under the master key [k], was made for a
    visited pair of rows that passed both thresholds. *)
Definition from_accepted_pair (token_set_ratio : string -> string -> Z)
           (col_map : DeduplicationColumnMap) (work : list WorkRow)
           (pairs : list (Z * Z)) (k : Z)
           (d : DuplicateRecordDetail) : Prop :=
  exists i1 i2 r1 r2 sc u,
    In (i1, i2) pairs /\
    loc work i1 = Ok r1 /\ loc work i2 = Ok r2 /\
    score_pair token_set_ratio col_map r1 r2 = Some sc /\
    d = dup_detail col_map r2 sc u /\
    k = ExcelRow r1 + 2.

Definition entry_ok (token_set_ratio : string -> string -> Z)
           (col_map : DeduplicationColumnMap) (work : list WorkRow)
           (pairs : list (Z * Z)) (kv : Z * MasterEntry) : Prop :=
  entry_MasterRow (snd kv) = fst kv /\
  entry_Duplicates (snd kv) <> [] /\
  Forall (from_accepted_pair token_set_ratio col_map work pairs (fst kv))
         (entry_Duplicates (snd kv)).

Definition dict_ok (token_set_ratio : string -> string -> Z)
           (col_map : DeduplicationColumnMap) (work : list WorkRow)
           (pairs : list (Z * Z)) (st : LoopState) : Prop :=
  Forall (entry_ok token_set_ratio col_map work pairs) (master_records_dict st).

Definition erase_entry (e : MasterEntry) : MasterEntry :=
  {| entry_MasterRow := entry_MasterRow e;
     entry_MasterName := entry_MasterName e;
     entry_MasterAddress := entry_MasterAddress e;
     entry_Duplicates := map erase_uid (entry_Duplicates e);
     entry_master_uid := EmptyString |}.

Definition erase_dict (d : list (Z * MasterEntry)) : list (Z * MasterEntry) :=
  map (fun kv => (fst kv, erase_entry (snd kv))) d.

(** Two states of the loop that differ in identifiers only. *)
Definition same_up_to_uids (s1 s2 : LoopState) : Prop :=
  erase_dict (master_records_dict s1) = erase_dict (master_records_dict s2).

End Props.

(** ** A concrete instance of the external capabilities and sample tables *)

Module Sample.

Import PyText Engine Props.
Local Open Scope string_scope.
Local Open Scope Z_scope.

(** The length of a longest common subsequence. *)
Fixpoint lcs (a b : list ascii) : nat :=
  match a with
  | [] => 0%nat
  | x :: a' =>
      (fix scan (b : list ascii) : nat :=
         match b with
         | [] => 0%nat
         | y :: b' =>
             if Ascii.eqb x y then S (lcs a' b')
             else Nat.max (lcs a' b) (scan b')
         end) b
  end.

(** A similarity in 0..100 in the manner of [fuzz.ratio]: twice the common
    subsequence over the total length, in percent, on the normalized
    texts. *)
Definition sample_ratio (a b : string) : Z :=
  let a' := list_ascii_of_string (normalize (PyStr a)) in
  let b' := list_ascii_of_string (normalize (PyStr b)) in
  let total := py_len a' + py_len b' in
  if total =? 0 then 0
  else py_round (py_truediv (200 * Z.of_nat (lcs a' b')) total).

(** A stable descending argsort by insertion. *)
Fixpoint insert_desc (keys : list Z) (i : nat) (l : list nat) : list nat :=
  match l with
  | [] => [i]
  | j :: t =>
      if nth j keys 0 <=? nth i keys 0 then i :: l
      else j :: insert_desc keys i t
  end.

Definition sample_argsort (keys : list Z) : list nat :=
  fold_right (insert_desc keys) [] (seq 0 (List.length keys)).

Definition uuids_a : uuid_source :=
  fun n => "a-" ++ String (ascii_of_nat (97 + n)) EmptyString.
Definition uuids_b : uuid_source :=
  fun n => "b-" ++ String (ascii_of_nat (97 + n)) EmptyString.

Definition name_address_city : DeduplicationColumnMap :=
  {| customer_name := Some "Name"; address := Some "Address";
     city := Some "City"; country := None; tpi := None |}.

Definition name_only : DeduplicationColumnMap :=
  {| customer_name := Some "Name"; address := None; city := None;
     country := None; tpi := None |}.

Definition customers : DataFrame :=
  {| df_columns := ["Name"; "Address"; "City"];
     df_rows :=
       [ [PyStr "Acme Corporation"; PyStr "1 Main Street"; PyStr "Boston"];
         [PyStr "ACME CORP"; PyStr "1 Main St."; PyStr "Boston"];
         [PyStr "abcdef1234"; PyStr "abcdefgh12"; PyStr "Austin"];
         [PyStr "abcdef5678"; PyStr "abcdefgh34"; PyStr "Austin"];
         [PyStr "Acme Corporation Ltd"; PyStr "1 Main Street"; PyStr "Boston"];
         [PyStr "Zeta Works"; PyStr "9 Hill Road"; PyStr "Dallas"];
         [PyStr "Zeta Works"; PyStr "9 Hill Road"; PyStr "Dallas"];
         [PyStr "Omega Labs"; PyStr "4 Lake View"; PyStr "Denver"] ] |}.

Definition no_rows : DataFrame :=
  {| df_columns := ["Name"; "Address"; "City"]; df_rows := [] |}.

Definition sample_engine (uuids : uuid_source) (df : DataFrame)
           (col_map : DeduplicationColumnMap) :=
  build_duplicate_df sample_ratio sample_argsort uuids df col_map.

(** The groups and statistics of the engine on [customers]. *)
Definition customers_groups : list MasterRecord :=
  Eval vm_compute in
    match sample_engine uuids_a customers name_address_city with
    | Ok (groups, _) => groups
    | Raise _ => []
    end.

Definition customers_stats : BlockStats :=
  Eval vm_compute in
    match sample_engine uuids_a customers name_address_city with
    | Ok (_, stats) => stats
    | Raise _ => zero_block_stats
    end.

End Sample.

(** ** The endpoint

    [run_deduplication], the caller of the engine. Its collaborators are
    parameters: what [json.loads] and the mapping model make of the form
    field, what [pd.read_csv] and [pd.read_excel] make of the upload, and
    the text [str] gives of an exception. The upload has a file name and its
    bytes are read without failure. *)

Module Service.

Import PyText Engine.
Local Open Scope string_scope.
Local Open Scope Z_scope.

(** Lines 57-69. *)
Record DeduplicationStats : Type := {
  high_confidence_duplicates_groups : Z;
  medium_confidence_duplicates_groups : Z;
  low_confidence_duplicates_groups : Z;
  block_stats : BlockStats;
  total_master_records_with_duplicates : Z;
  total_potential_duplicate_records : Z
}.

(** The [results] dict of a completed run, lines 324-329. *)
Record Results : Type := {
  duplicate_group_count : Z;
  total_potential_duplicates : Z;
  duplicates : list MasterRecord;
  stats : DeduplicationStats
}.

Record DeduplicationResponse : Type := {
  message : string;
  results : option Results;
  error : option string
}.

(** What a call of the endpoint ends in: an [HTTPException] or a response. *)
Inductive outcome : Type :=
| HTTPException (status_code : Z) (detail : string)
| Return (response : DeduplicationResponse).

(** What [json.loads] and the constructor of the mapping model make of the
    form field. *)
Inductive parsed_map : Type :=
| JSONDecodeError
| InvalidMapping (text : string)
| Mapping (col_map : DeduplicationColumnMap).

(** What [pd.read_csv] or [pd.read_excel] makes of the uploaded bytes. *)
Inductive parsed_file : Type :=
| ReadError (text : string)
| Frame (df : DataFrame).

(** [s.endswith(suffix)] *)
Definition endswith (s suffix : string) : bool :=
  let n := String.length s in
  let m := String.length suffix in
  (m <=? n)%nat && String.eqb (substring (n - m) m s) suffix.

(** [df.empty]: an axis of length 0. *)
Definition df_empty (df : DataFrame) : bool :=
  match df_columns df, df_rows df with
  | [], _ => true
  | _, [] => true
  | _ :: _, _ :: _ => false
  end.

(** The exceptions line 284 catches; line 335 catches the others. The
    endpoint calls the engine on a table with rows only, so the run that is
    not followed does not reach it. *)
Definition is_ValueError (e : exn) : bool :=
  match e with
  | MappedColumnNotFound _ _ => true
  | NoValidColumns => true
  | DuplicateLabels => true
  | KeyError _ => false
  | Unmodelled => false
  end.

(** Lines 288-311. *)
Definition make_stats (dup_df : list MasterRecord) (block_stats_dict : BlockStats)
  : DeduplicationStats :=
  let high_conf_groups := filter (fun g => 98 <=? AvgSimilarity g) dup_df in
  let medium_conf_groups :=
    filter (fun g => (AvgSimilarity g <? 98) && (90 <=? AvgSimilarity g)) dup_df in
  let low_conf_groups := filter IsLowConfidenceGroup dup_df in
  {| high_confidence_duplicates_groups := py_len high_conf_groups;
     medium_confidence_duplicates_groups := py_len medium_conf_groups;
     low_confidence_duplicates_groups := py_len low_conf_groups;
     block_stats := block_stats_dict;
     total_master_records_with_duplicates := py_len dup_df;
     total_potential_duplicate_records := py_sum (map DuplicateCount dup_df) |}.

Section WithCollaborators.

Variable token_set_ratio : string -> string -> Z.
Variable argsort_desc : list Z -> list nat.

(** The parsers the endpoint calls, and the text [str] gives of an
    exception of the engine. *)
Variable parse_column_map : string -> parsed_map.
Variable read_csv : string -> parsed_file.
Variable read_excel : string -> parsed_file.
Variable exn_text : exn -> string.

(** Lines 263-276. *)
Definition read_upload (filename content : string) : outcome + DataFrame :=
  if endswith filename ".csv" then
    match read_csv content with
    | ReadError t => inl (HTTPException 400 ("Error reading CSV file: " ++ t))
    | Frame df_raw => inr df_raw
    end
  else if endswith filename ".xls" || endswith filename ".xlsx" then
    match read_excel content with
    | ReadError t => inl (HTTPException 400 ("Error reading Excel file: " ++ t))
    | Frame df_raw => inr df_raw
    end
  else
    inl (HTTPException 400 "Invalid file type. Please upload CSV or Excel.").

(** [run_deduplication], lines 243-338. *)
Definition run_deduplication (uuids : uuid_source)
           (filename content column_map_json : string) : outcome :=
  match parse_column_map column_map_json with
  | JSONDecodeError =>
      HTTPException 400 "Invalid JSON format for column mapping."
  | InvalidMapping t =>
      HTTPException 400 ("Invalid column mapping data: " ++ t)
  | Mapping column_map =>
      match read_upload filename content with
      | inl raised => raised
      | inr df_raw =>
          if df_empty df_raw then
            Return {| message := "Uploaded file is empty.";
                      results := None;
                      error := Some "File empty" |}
          else
            match build_duplicate_df token_set_ratio argsort_desc uuids
                                     df_raw column_map with
            | Raise e =>
                if is_ValueError e then
                  Return {| message := "Deduplication error: " ++ exn_text e;
                            results := None;
                            error := Some (exn_text e) |}
                else
                  Return {| message := "An unexpected error occurred: "
                                       ++ exn_text e;
                            results := None;
                            error := Some (exn_text e) |}
            | Ok (dup_df, block_stats_dict) =>
                let stats := make_stats dup_df block_stats_dict in
                let duplicates_list := dup_df in
                Return
                  {| message := "Deduplication process completed.";
                     results :=
                       Some {| duplicate_group_count := py_len duplicates_list;
                               total_potential_duplicates :=
                                 total_potential_duplicate_records stats;
                               duplicates := duplicates_list;
                               stats := stats |};
                     error := None |}
            end
      end
  end.

End WithCollaborators.

End Service.

(** ** Further vocabulary: scores, pairs and identifiers *)

Module Terms.

Import PyText Engine Props.
Local Open Scope Z_scope.

(** A lower-case letter or a digit. *)
Definition is_alnum (c : ascii) : bool :=
  in_range 97 122 c || in_range 48 57 c.

(** Every character is a lower-case letter, a digit, or a space that ends
    the text or stands before a letter or digit. *)
Fixpoint single_spaced (l : list ascii) : Prop :=
  match l with
  | [] => True
  | c :: t =>
      (is_alnum c = true \/
       (c = " "%char /\
        match t with [] => True | b :: _ => is_alnum b = true end)) /\
      single_spaced t
  end.

(** [str.strip] on the characters of a text. *)
Definition trim_chars (l : list ascii) : list ascii :=
  rev (drop_while py_isspace (rev (drop_while py_isspace l))).

(** A similarity measure that stays within 0..100. *)
Definition bounded_ratio (token_set_ratio : string -> string -> Z) : Prop :=
  forall a b, 0 <= token_set_ratio a b <= 100.

(** A similarity measure that does not depend on the order of its
    arguments. *)
Definition symmetric_ratio (token_set_ratio : string -> string -> Z) : Prop :=
  forall a b, token_set_ratio a b = token_set_ratio b a.

(** The cell of a row of [work] under a column is the missing value. *)
Definition cell_missing (column : option string) (r : WorkRow) : Prop :=
  exists c, column = Some c /\ truthy c = true /\
            series_get (cells r) c = Some PyNone.



(** Every identifier of the output: per group its own and those of its
    duplicates. *)
Definition output_ids (groups : list MasterRecord) : list string :=
  flat_map (fun g => master_uid g :: map uid (Duplicates g)) groups.

Definition dict_ids (d : list (Z * MasterEntry)) : list string :=
  flat_map (fun kv => entry_master_uid (snd kv)
                      :: map uid (entry_Duplicates (snd kv))) d.

(** The pair passes both thresholds of the comparison loop. *)
Definition accepted (token_set_ratio : string -> string -> Z)
           (col_map : DeduplicationColumnMap) (work : list WorkRow)
           (pair : Z * Z) : bool :=
  match loc work (fst pair), loc work (snd pair) with
  | Ok r1, Ok r2 => is_some (score_pair token_set_ratio col_map r1 r2)
  | _, _ => false
  end.


(** The number of duplicate records over all entries of the dict. *)
Definition dict_duplicates (d : list (Z * MasterEntry)) : Z :=
  py_sum (map (fun kv => py_len (entry_Duplicates (snd kv))) d).









End Terms.

(** ** Further sample inputs *)

Module Cases.

Import PyText Engine Props Sample.
Local Open Scope string_scope.
Local Open Scope Z_scope.

Definition with_country : DeduplicationColumnMap :=
  {| customer_name := Some "Name"; address := None; city := None;
     country := Some "Country"; tpi := None |}.




(** Exact match or nothing: a similarity that is bounded and symmetric. *)
Definition exact_ratio (a b : string) : Z :=
  if String.eqb a b then 100 else 0.

(** A table with a missing name. *)
Definition with_gap : DataFrame :=
  {| df_columns := ["Name"; "Address"];
     df_rows :=
       [ [PyStr "Acme"; PyStr "1 Main Street"];
         [PyNone; PyStr "1 Main Street"];
         [PyStr "Acme"; PyStr "1 Main Street"] ] |}.

Definition name_and_address : DeduplicationColumnMap :=
  {| customer_name := Some "Name"; address := Some "Address"; city := None;
     country := None; tpi := None |}.

Definition city_only : DeduplicationColumnMap :=
  {| customer_name := None; address := None; city := Some "City";
     country := None; tpi := None |}.





Definition parse_any (column_map_json : string) : Service.parsed_map :=
  Service.Mapping name_address_city.

Definition read_any (content : string) : Service.parsed_file :=
  Service.Frame customers.

Definition exn_text_any (e : exn) : string := "error".

Definition sample_service (filename : string) : Service.outcome :=
  Service.run_deduplication sample_ratio sample_argsort parse_any read_any
                            read_any exn_text_any uuids_a filename
                            EmptyString EmptyString.

(** An identifier source that never repeats: the n-th identifier is n
    strokes. *)
Fixpoint tally (n : nat) : string :=
  match n with
  | O => EmptyString
  | S n' => String "i"%char (tally n')
  end.

(** The engine on [customers] under other mappings and measures. *)
Definition groups_of (out : result (list MasterRecord * BlockStats))
  : list MasterRecord :=
  match out with
  | Ok (groups, _) => groups
  | Raise _ => []
  end.

Definition stats_of (out : result (list MasterRecord * BlockStats))
  : BlockStats :=
  match out with
  | Ok (_, stats) => stats
  | Raise _ => zero_block_stats
  end.

Definition exact_groups : list MasterRecord :=
  Eval vm_compute in
    groups_of (build_duplicate_df exact_ratio sample_argsort uuids_a
                                  customers name_address_city).

Definition exact_stats : BlockStats :=
  Eval vm_compute in
    stats_of (build_duplicate_df exact_ratio sample_argsort uuids_a
                                 customers name_address_city).

Definition tally_groups : list MasterRecord :=
  Eval vm_compute in
    groups_of (sample_engine tally customers name_address_city).

Definition name_only_groups : list MasterRecord :=
  Eval vm_compute in groups_of (sample_engine uuids_a customers name_only).

Definition name_only_stats : BlockStats :=
  Eval vm_compute in stats_of (sample_engine uuids_a customers name_only).

Definition city_only_groups : list MasterRecord :=
  Eval vm_compute in groups_of (sample_engine uuids_a customers city_only).

Definition city_only_stats : BlockStats :=
  Eval vm_compute in stats_of (sample_engine uuids_a customers city_only).

End Cases.

(** * Properties *)

Import PyText Engine Props.
Open Scope Z_scope.

(** ** The normalizer *)

Section NormalizeFacts.

Local Open Scope string_scope.

Let chars := list_ascii_of_string.

Lemma chars_append (a b : string) : chars (a ++ b) = (chars a ++ chars b)%list.
Proof.
  induction a as [|c a IH]; simpl; [reflexivity|].
  unfold chars in *; simpl; now rewrite IH.
Qed.

Lemma chars_lstrip (s : string) :
  chars (py_lstrip s) = drop_while py_isspace (chars s).
Proof.
  induction s as [|c s IH]; simpl; [reflexivity|].
  unfold chars in *; simpl.
  destruct (py_isspace c); [exact IH | reflexivity].
Qed.

Lemma drop_while_snoc (p : ascii -> bool) (l : list ascii) (c : ascii) :
  drop_while p (l ++ [c]) =
  match drop_while p l with
  | [] => if p c then [] else [c]
  | c' :: l' => (c' :: l') ++ [c]
  end%list.
Proof.
  induction l as [|x l IH]; simpl; [reflexivity|].
  destruct (p x); [exact IH | reflexivity].
Qed.

Lemma chars_rstrip (s : string) :
  chars (py_rstrip s) = rev (drop_while py_isspace (rev (chars s))).
Proof.
  induction s as [|c s IH]; [reflexivity|].
  unfold chars in *; cbn [list_ascii_of_string rev py_rstrip].
  rewrite drop_while_snoc.
  destruct (drop_while py_isspace (rev (list_ascii_of_string s))) as [|c' l'] eqn:E.
  - destruct (py_rstrip s); [|discriminate IH].
    destruct (py_isspace c); reflexivity.
  - destruct (py_rstrip s) as [|a t] eqn:R.
    + simpl in IH. destruct (rev l'); discriminate IH.
    + rewrite rev_app_distr, <- IH. reflexivity.
Qed.

Lemma strip_is_trim (s : string) : py_strip s = trim s.
Proof.
  unfold py_strip, trim.
  rewrite <- (string_of_list_ascii_of_string (py_rstrip (py_lstrip s))).
  f_equal. fold chars. now rewrite chars_rstrip, chars_lstrip.
Qed.

Lemma sub_class_is_blank_out (s : string) :
  re_sub_class not_alnum_space " " s = blank_out s.
Proof.
  unfold blank_out.
  induction s as [|c s IH]; [reflexivity|].
  cbn [re_sub_class list_ascii_of_string map string_of_list_ascii].
  unfold not_alnum_space at 1. fold (keeps c).
  destruct (keeps c); simpl; now rewrite IH.
Qed.

Lemma collapse_cons (c : ascii) (t : list ascii) :
  collapse (c :: t) =
  if py_isspace c then
    match t with
    | c' :: _ => if py_isspace c' then collapse t else " "%char :: collapse t
    | [] => [" "%char]
    end
  else c :: collapse t.
Proof. reflexivity. Qed.

Lemma collapse_run (c : ascii) (l : list ascii) :
  py_isspace c = true ->
  collapse (c :: l) = " "%char :: collapse (drop_while py_isspace l).
Proof.
  revert c. induction l as [|c' l IH]; intros c Hc.
  - simpl. now rewrite Hc.
  - rewrite (collapse_cons c (c' :: l)), Hc. cbn [drop_while].
    destruct (py_isspace c') eqn:Hc'; [now apply IH | reflexivity].
Qed.

Lemma chars_sub_plus (s : string) :
  chars (re_sub_plus_from py_isspace " " false s) = collapse (chars s) /\
  chars (re_sub_plus_from py_isspace " " true s) =
    collapse (drop_while py_isspace (chars s)).
Proof.
  induction s as [|c s [IH0 IH1]]; [split; reflexivity|].
  unfold chars in *.
  cbn [re_sub_plus_from list_ascii_of_string drop_while].
  destruct (py_isspace c) eqn:Hc.
  - split; [|exact IH1].
    rewrite (collapse_run c _ Hc). simpl. now rewrite IH1.
  - split; cbn [list_ascii_of_string]; rewrite collapse_cons, Hc, IH0;
      reflexivity.
Qed.

Lemma sub_plus_is_collapse (s : string) :
  re_sub_plus py_isspace " " s = collapse_ws s.
Proof.
  unfold re_sub_plus, collapse_ws.
  pose proof (proj1 (chars_sub_plus s)) as H. unfold chars in H.
  now rewrite <- H, string_of_list_ascii_of_string.
Qed.

End NormalizeFacts.

(** C2, as the code has it: [normalize] is total and is the pipeline of the
    specification (lower-case, trim, blank out every character outside
    a-z, 0-9 and whitespace, collapse runs of whitespace to one space, trim)
    applied to the text [str] gives of the value; the empty text yields the
    empty string, and the missing value [None], whose text is "None",
    yields "none". *)
Theorem normalize_is_spec_pipeline_on_text :
  (forall v : pyval, normalize v = normalize_spec (py_str v)) /\
  normalize (PyStr EmptyString) = EmptyString /\
  normalize PyNone = "none"%string.
Proof.
  split; [|split; reflexivity].
  intros v. unfold normalize, normalize_spec.
  now rewrite !strip_is_trim, sub_class_is_blank_out, sub_plus_is_collapse.
Qed.

(** C2, refuted as stated: the missing value does not normalize to the empty
    string. *)
Lemma normalize_None_is_not_empty :
  ~ (forall v : pyval,
        normalize v = normalize_spec (py_str v) /\
        (v = PyNone \/ v = PyStr EmptyString -> normalize v = EmptyString)).
Proof.
  intros H. destruct (H PyNone) as [_ H0].
  specialize (H0 (or_introl eq_refl)). vm_compute in H0. discriminate H0.
Qed.

(** ** Loops that can raise *)

Section ForEach.

Context {S A : Type} (body : S -> A -> result S).

Lemma for_each_app (l1 l2 : list A) (s : S) :
  for_each body (l1 ++ l2) s =
  (s' <- for_each body l1 s ;; for_each body l2 s').
Proof.
  revert s. induction l1 as [|x l1 IH]; intros s; simpl; [reflexivity|].
  destruct (body s x) as [s1|e]; simpl; [apply IH | reflexivity].
Qed.

(** A property of the state that every iteration keeps holds at the end. *)
Lemma for_each_invariant (I : S -> Prop) (P : A -> Prop) :
  (forall s x s', P x -> I s -> body s x = Ok s' -> I s') ->
  forall l s s',
    Forall P l -> I s -> for_each body l s = Ok s' -> I s'.
Proof.
  intros Hstep l. induction l as [|x l IH]; intros s s' HP HI Hrun; simpl in Hrun.
  - now inversion Hrun; subst.
  - inversion HP as [|? ? Hx Hl]; subst.
    destruct (body s x) as [s1|e] eqn:E; simpl in Hrun; [|discriminate].
    apply (IH s1 s' Hl); [exact (Hstep s x s1 Hx HI E) | exact Hrun].
Qed.


End ForEach.

Lemma for_each_related {S A : Type} (R : S -> S -> Prop)
      (body1 body2 : S -> A -> result S) :
  (forall s1 s2 x, R s1 s2 -> related R (body1 s1 x) (body2 s2 x)) ->
  forall l s1 s2,
    R s1 s2 -> related R (for_each body1 l s1) (for_each body2 l s2).
Proof.
  intros Hstep l. induction l as [|x l IH]; intros s1 s2 HR; simpl; [exact HR|].
  specialize (Hstep s1 s2 x HR).
  destruct (body1 s1 x) as [t1|e1], (body2 s2 x) as [t2|e2]; simpl in *;
    try contradiction; auto.
Qed.

(** ** The working frame *)

Section WorkFacts.

Variable df : DataFrame.
Variable col_map : DeduplicationColumnMap.

Lemma make_rows_nth (rows : list (list pyval)) (i j : nat) :
  nth_error (make_rows df col_map i rows) j =
  option_map (make_row df col_map (i + j)) (nth_error rows j).
Proof.
  revert i j. induction rows as [|row rows IH]; intros i j.
  - destruct j; reflexivity.
  - destruct j as [|j]; simpl.
    + now rewrite Nat.add_0_r.
    + rewrite IH. now rewrite Nat.add_succ_r.
Qed.

(** Row [j] of [work] is built from row [j] of the table. *)
Lemma make_work_nth (j : nat) :
  nth_error (make_work df col_map) j =
  option_map (make_row df col_map j) (nth_error (df_rows df) j).
Proof. unfold make_work. now rewrite make_rows_nth. Qed.

End WorkFacts.

Lemma make_work_indexed (df : DataFrame) (col_map : DeduplicationColumnMap) :
  indexed (make_work df col_map).
Proof.
  intros j r H. rewrite make_work_nth in H.
  destruct (nth_error (df_rows df) j); simpl in H; [|discriminate].
  now inversion H.
Qed.

Lemma indexed_app_l (p q : list WorkRow) : indexed (p ++ q) -> indexed p.
Proof.
  intros H j r Hj. apply H. rewrite nth_error_app1; [exact Hj|].
  apply nth_error_Some. congruence.
Qed.

Lemma indexed_In (work : list WorkRow) (r : WorkRow) :
  indexed work -> In r work ->
  0 <= ExcelRow r < Z.of_nat (List.length work) /\
  nth_error work (Z.to_nat (ExcelRow r)) = Some r.
Proof.
  intros Hi Hr. apply In_nth_error in Hr. destruct Hr as [j Hj].
  pose proof (Hi _ _ Hj) as E.
  assert (j < List.length work)%nat by (apply nth_error_Some; congruence).
  rewrite E, Nat2Z.id. split; [lia | exact Hj].
Qed.

Lemma loc_Ok (work : list WorkRow) (i : Z) (r : WorkRow) :
  indexed work -> loc work i = Ok r -> In r work /\ ExcelRow r = i.
Proof.
  unfold loc. intros Hi H.
  destruct (i <? 0) eqn:Hneg; [discriminate|].
  destruct (nth_error work (Z.to_nat i)) as [r'|] eqn:E; [|discriminate].
  inversion H; subst r'. split; [eapply nth_error_In; eauto|].
  rewrite (Hi _ _ E). apply Z.ltb_ge in Hneg. lia.
Qed.


(** Two rows of an indexed frame with the same [ExcelRow] are one row. *)
Lemma indexed_inj (work : list WorkRow) (r r' : WorkRow) :
  indexed work -> In r work -> In r' work -> ExcelRow r = ExcelRow r' -> r = r'.
Proof.
  intros Hi Hr Hr' E.
  destruct (indexed_In _ _ Hi Hr) as [_ H1], (indexed_In _ _ Hi Hr') as [_ H2].
  rewrite E in H1. congruence.
Qed.

(** ** The blocking index *)

Section BlockFacts.

Variable col_map : DeduplicationColumnMap.

Lemma setdefault_append_In (key : string) (i : Z) (b : list (string * list Z))
      (k : string) (idxs : list Z) :
  In (k, idxs) (setdefault_append key i b) ->
  In (k, idxs) b \/
  (k = key /\ (idxs = [i] \/ exists l, In (key, l) b /\ idxs = (l ++ [i])%list)).
Proof.
  induction b as [|[k0 l0] b IH]; simpl.
  - intros [H|[]]. inversion H; subst. right; split; [reflexivity | now left].
  - destruct (String.eqb_spec k0 key) as [->|Hne]; simpl.
    + intros [H|H]; [|now left; right].
      inversion H; subst. right; split; [reflexivity|].
      right. exists l0. split; [now left | reflexivity].
    + intros [H|H]; [now left; left|].
      destruct (IH H) as [H'|[-> [->|[l [Hl ->]]]]].
      * now left; right.
      * right; split; [reflexivity | now left].
      * right; split; [reflexivity|]. right. exists l. split; [now right | reflexivity].
Qed.

Lemma setdefault_append_keys (key : string) (i : Z) (b : list (string * list Z))
      (k : string) :
  In k (map fst (setdefault_append key i b)) -> k = key \/ In k (map fst b).
Proof.
  induction b as [|[k0 l0] b IH]; simpl.
  - intros [H|[]]; now left.
  - destruct (String.eqb_spec k0 key) as [->|Hne]; simpl.
    + intros [H|H]; [now right; left | now right; right].
    + intros [H|H]; [now right; left|].
      destruct (IH H); [now left | now right; right].
Qed.

Lemma setdefault_append_NoDup (key : string) (i : Z) (b : list (string * list Z)) :
  NoDup (map fst b) -> NoDup (map fst (setdefault_append key i b)).
Proof.
  induction b as [|[k0 l0] b IH]; simpl; intros H.
  - constructor; [intros [] | constructor].
  - inversion H as [|? ? Hk Hb]; subst.
    destruct (String.eqb_spec k0 key) as [->|Hne]; simpl.
    + now constructor.
    + constructor; [|now apply IH].
      intros Hin. apply setdefault_append_keys in Hin.
      destruct Hin as [->|Hin]; [now apply Hne | now apply Hk].
Qed.

(** An index stays in the block it was put in. *)
Lemma setdefault_append_keeps (key : string) (i : Z) (b : list (string * list Z))
      (k : string) (idxs : list Z) :
  In (k, idxs) b ->
  exists idxs', In (k, idxs') (setdefault_append key i b) /\ incl idxs idxs'.
Proof.
  induction b as [|[k0 l0] b IH]; simpl; [intros []|].
  intros [H|H].
  - inversion H; subst.
    destruct (String.eqb_spec k key) as [->|Hne].
    + exists (idxs ++ [i])%list. split; [now left | now apply incl_appl, incl_refl].
    + exists idxs. split; [now left | apply incl_refl].
  - destruct (String.eqb_spec k0 key) as [->|Hne].
    + exists idxs. split; [now right | apply incl_refl].
    + destruct (IH H) as [idxs' [H1 H2]]. exists idxs'. split; [now right | exact H2].
Qed.

Lemma setdefault_append_adds (key : string) (i : Z) (b : list (string * list Z)) :
  exists idxs, In (key, idxs) (setdefault_append key i b) /\ In i idxs.
Proof.
  induction b as [|[k0 l0] b IH]; simpl.
  - exists [i]. split; now left.
  - destruct (String.eqb_spec k0 key) as [->|Hne].
    + exists (l0 ++ [i])%list. split; [now left | apply in_or_app; right; now left].
    + destruct IH as [idxs [H1 H2]]. exists idxs. split; [now right | exact H2].
Qed.

Lemma StronglySorted_snoc (l : list Z) (i : Z) :
  StronglySorted Z.lt l -> Forall (fun x => x < i) l ->
  StronglySorted Z.lt (l ++ [i]).
Proof.
  induction l as [|x l IH]; simpl; intros Hs Hl.
  - constructor; constructor.
  - inversion Hs as [|? ? Hs' Hx]; subst. inversion Hl as [|? ? Hxi Hl']; subst.
    constructor; [now apply IH|].
    apply Forall_app. split; [exact Hx | now constructor].
Qed.

Lemma build_blocks_snoc (p : list WorkRow) (r : WorkRow) :
  build_blocks col_map (p ++ [r]) =
  setdefault_append (block_key col_map r) (ExcelRow r) (build_blocks col_map p).
Proof. unfold build_blocks. now rewrite fold_left_app. Qed.

Lemma build_blocks_inv (work : list WorkRow) :
  indexed work -> blocks_inv col_map work (build_blocks col_map work).
Proof.
  induction work as [|r p IH] using rev_ind; intros Hi.
  - split; [constructor | split; [intros ? ? [] | intros ? []]].
  - pose proof (indexed_app_l _ _ Hi) as Hp.
    destruct (IH Hp) as [Hnd [Hblk Hrow]].
    assert (Hr : ExcelRow r = Z.of_nat (List.length p)).
    { apply Hi. rewrite nth_error_app2, Nat.sub_diag; [reflexivity | lia]. }
    rewrite build_blocks_snoc. split; [|split].
    + now apply setdefault_append_NoDup.
    + intros k idxs Hin. apply setdefault_append_In in Hin.
      destruct Hin as [Hin|[-> [->|[l [Hl ->]]]]].
      * destruct (Hblk _ _ Hin) as [Hs Hm]. split; [exact Hs|].
        intros i Hi'. destruct (Hm i Hi') as [r' [H1 H2]].
        exists r'. split; [apply in_or_app; now left | exact H2].
      * split; [constructor; constructor|].
        intros i [<-|[]]. exists r. split; [apply in_or_app; right; now left | auto].
      * destruct (Hblk _ _ Hl) as [Hs Hm]. split.
        -- apply StronglySorted_snoc; [exact Hs|].
           apply Forall_forall. intros x Hx.
           destruct (Hm x Hx) as [r' [H1 [H2 _]]].
           destruct (indexed_In _ _ Hp H1) as [Hb _]. lia.
        -- intros i Hi'. apply in_app_or in Hi'. destruct Hi' as [Hi'|[<-|[]]].
           ++ destruct (Hm i Hi') as [r' [H1 H2]].
              exists r'. split; [apply in_or_app; now left | exact H2].
           ++ exists r. split; [apply in_or_app; right; now left | auto].
    + intros r' Hr'. apply in_app_or in Hr'. destruct Hr' as [Hr'|[<-|[]]].
      * destruct (Hrow r' Hr') as [idxs [H1 H2]].
        destruct (setdefault_append_keeps (block_key col_map r) (ExcelRow r) _ _ _ H1)
          as [idxs' [H3 H4]].
        exists idxs'. split; [exact H3 | now apply H4].
      * apply setdefault_append_adds.
Qed.

End BlockFacts.




(** ** The comparison loop *)

Lemma append_duplicate_In (key : Z) (dup : DuplicateRecordDetail)
      (d : list (Z * MasterEntry)) (k : Z) (e' : MasterEntry) :
  In (k, e') (append_duplicate key dup d) ->
  In (k, e') d \/
  (k = key /\ exists e, In (key, e) d /\
     entry_MasterRow e' = entry_MasterRow e /\
     entry_Duplicates e' = (entry_Duplicates e ++ [dup])%list).
Proof.
  induction d as [|[k0 e0] d IH]; simpl; [intros []|].
  destruct (Z.eqb_spec k0 key) as [->|Hne]; simpl.
  - intros [H|H]; [|now left; right].
    inversion H; subst. right. split; [reflexivity|].
    exists e0. split; [now left | split; reflexivity].
  - intros [H|H]; [now left; left|].
    destruct (IH H) as [H'|[-> [e [He Hd]]]]; [now left; right|].
    right. split; [reflexivity|]. exists e. split; [now right | exact Hd].
Qed.

Lemma append_duplicate_fresh (key : Z) (dup : DuplicateRecordDetail)
      (d : list (Z * MasterEntry)) (e : MasterEntry) :
  dict_mem key d = false ->
  exists e',
    append_duplicate key dup (d ++ [(key, e)]) = (d ++ [(key, e')])%list /\
    entry_MasterRow e' = entry_MasterRow e /\
    entry_Duplicates e' = (entry_Duplicates e ++ [dup])%list.
Proof.
  induction d as [|[k0 e0] d IH]; simpl; intros Hm.
  - rewrite Z.eqb_refl. eexists. split; [reflexivity | split; reflexivity].
  - apply orb_false_iff in Hm. destruct Hm as [Hk Hm]. rewrite Hk.
    destruct (IH Hm) as [e' [E H]]. exists e'. split; [now rewrite E | exact H].
Qed.

Section LoopFacts.

Variable token_set_ratio : string -> string -> Z.
Variable uuids : uuid_source.
Variable col_map : DeduplicationColumnMap.
Variable work : list WorkRow.

Lemma compare_pair_keeps_dict_ok (pairs : list (Z * Z)) (st st' : LoopState)
      (pair : Z * Z) :
  In pair pairs -> dict_ok token_set_ratio col_map work pairs st ->
  compare_pair token_set_ratio uuids col_map work st pair = Ok st' ->
  dict_ok token_set_ratio col_map work pairs st'.
Proof.
  intros Hp Hst. unfold compare_pair. destruct pair as [i1 i2]. simpl fst; simpl snd.
  destruct (loc work i1) as [r1|] eqn:L1; simpl; [|discriminate].
  destruct (loc work i2) as [r2|] eqn:L2; simpl; [|discriminate].
  destruct (score_pair token_set_ratio col_map r1 r2) as [sc|] eqn:Sc;
    [|intros H; now inversion H; subst].
  set (dup := dup_detail col_map r2 sc (uuids (uuids_drawn st))).
  assert (Hdup : from_accepted_pair token_set_ratio col_map work pairs (ExcelRow r1 + 2) dup).
  { exists i1, i2, r1, r2, sc, (uuids (uuids_drawn st)). repeat split; auto. }
  destruct (dict_mem (ExcelRow r1 + 2) (master_records_dict st)) eqn:Hm;
    intros H; inversion H; subst st'; clear H; unfold dict_ok in *; simpl.
  - apply Forall_forall. intros [k e'] Hin.
    apply append_duplicate_In in Hin.
    destruct Hin as [Hin|[-> [e [He [Hr Hd]]]]].
    + rewrite Forall_forall in Hst. now apply Hst.
    + rewrite Forall_forall in Hst. destruct (Hst _ He) as [H1 [_ H3]].
      simpl in *. unfold entry_ok; simpl. split; [congruence | split].
      * rewrite Hd. now destruct (entry_Duplicates e).
      * simpl. rewrite Hd. apply Forall_app. split; [exact H3 | now constructor].
  - destruct (append_duplicate_fresh (ExcelRow r1 + 2) dup (master_records_dict st)
                (new_master col_map r1 (ExcelRow r1 + 2)
                            (uuids (S (uuids_drawn st)))) Hm)
      as [e' [E [Hr Hd]]].
    rewrite E. apply Forall_app. split; [exact Hst|].
    constructor; [|constructor]. unfold entry_ok; simpl in *.
    split; [exact Hr | split; rewrite Hd; simpl].
    + discriminate.
    + now constructor.
Qed.


(** The nested loops visit [compared_pairs], in order. *)
Lemma compare_blocks_visits_compared_pairs (blocks : list (string * list Z))
      (st : LoopState) :
  for_each (compare_block token_set_ratio uuids col_map work) (map snd blocks) st =
  for_each (compare_pair token_set_ratio uuids col_map work)
           (compared_pairs blocks) st.
Proof.
  revert st. induction blocks as [|[k idxs] blocks IH]; intros st; [reflexivity|].
  unfold compared_pairs in *. cbn [map flat_map snd for_each].
  rewrite for_each_app. unfold compare_block at 1.
  destruct (py_len idxs <? 2); simpl; [apply IH|].
  destruct (for_each _ (combinations2 idxs) st); simpl; [apply IH | reflexivity].
Qed.

End LoopFacts.

(** ** From the result of the engine back to the loop *)

Lemma take_In {A : Type} (indexer : list nat) (l : list A) (x : A) :
  In x (take indexer l) -> In x l.
Proof.
  unfold take. intros H. apply in_flat_map in H. destruct H as [i [_ H]].
  destruct (nth_error l i) as [y|] eqn:E; [|destruct H].
  destruct H as [<-|[]]. eapply nth_error_In; eauto.
Qed.

Section EngineFacts.

Variable token_set_ratio : string -> string -> Z.
Variable argsort_desc : list Z -> list nat.
Variable uuids : uuid_source.
Variable df : DataFrame.
Variable col_map : DeduplicationColumnMap.

Let work := make_work df col_map.
Let blocks := build_blocks col_map work.

(** What a successful invocation went through. *)
Lemma build_duplicate_df_Ok (groups : list MasterRecord) (stats : BlockStats) :
  build_duplicate_df token_set_ratio argsort_desc uuids df col_map
    = Ok (groups, stats) ->
  exists st,
    for_each (compare_pair token_set_ratio uuids col_map work)
             (compared_pairs blocks)
             {| master_records_dict := []; uuids_drawn := 0 |} = Ok st /\
    stats = make_block_stats blocks /\
    groups =
      match map (fun kv => finalize (snd kv)) (master_records_dict st) with
      | [] => []
      | _ :: _ =>
          sort_values_AvgSimilarity_desc argsort_desc
            (map (fun kv => finalize (snd kv)) (master_records_dict st))
      end.
Proof.
  unfold build_duplicate_df.
  destruct (validate_columns _ _); simpl; [|discriminate].
  destruct (cols_to_select df col_map) as [|c0 sel]; [discriminate|].
  destruct (reindex_fails col_map (c0 :: sel));
    [destruct (df_rows df); discriminate|].
  rewrite compare_blocks_visits_compared_pairs.
  fold work. fold blocks.
  destruct (for_each _ (compared_pairs blocks) _) as [st|] eqn:E; simpl;
    [|discriminate].
  intros H. inversion H; subst. now exists st.
Qed.

(** Every returned group is the finalization of a dict entry that holds at
    least one duplicate, each one made for an accepted pair of a block. *)
Lemma groups_from_entries (groups : list MasterRecord) (stats : BlockStats)
      (g : MasterRecord) :
  build_duplicate_df token_set_ratio argsort_desc uuids df col_map
    = Ok (groups, stats) ->
  In g groups ->
  exists e,
    g = finalize e /\ entry_Duplicates e <> [] /\
    Forall (from_accepted_pair token_set_ratio col_map work
              (compared_pairs blocks) (entry_MasterRow e))
           (entry_Duplicates e).
Proof.
  intros Hrun Hg. apply build_duplicate_df_Ok in Hrun.
  destruct Hrun as [st [Hloop [_ ->]]].
  assert (Hok : dict_ok token_set_ratio col_map work (compared_pairs blocks) st).
  { eapply (for_each_invariant _
              (dict_ok token_set_ratio col_map work (compared_pairs blocks))
              (fun p => In p (compared_pairs blocks))); [| | |exact Hloop].
    - intros s x s' Hx Hs Hb. eapply compare_pair_keeps_dict_ok; eauto.
    - apply Forall_forall. auto.
    - constructor. }
  assert (Hin : In g (map (fun kv => finalize (snd kv)) (master_records_dict st))).
  { destruct (map _ (master_records_dict st)) eqn:E; [destruct Hg|].
    eapply take_In. exact Hg. }
  apply in_map_iff in Hin. destruct Hin as [[k e] [<- Hke]].
  unfold dict_ok in Hok. rewrite Forall_forall in Hok.
  destruct (Hok _ Hke) as [H1 [H2 H3]]. simpl in *.
  exists e. split; [reflexivity | split; [exact H2|]]. now rewrite H1.
Qed.

End EngineFacts.

(** ** Thresholds *)

(** A pair that is accepted carries the overall score of lines 166-170, which
    is at least 70. *)
Lemma accepted_pair_overall
      (token_set_ratio : string -> string -> Z)
      (col_map : DeduplicationColumnMap) (r1 r2 : WorkRow) (sc : PairScores) :
  score_pair token_set_ratio col_map r1 r2 = Some sc ->
  overall sc =
    overall_score col_map
      (field_score token_set_ratio (customer_name col_map) r1 r2)
      (field_score token_set_ratio (address col_map) r1 r2) /\
  70 <= overall sc.
Proof.
  unfold score_pair.
  destruct (truthy_opt (customer_name col_map) && _); [discriminate|].
  destruct (Z.ltb_spec
              (overall_score col_map
                 (field_score token_set_ratio (customer_name col_map) r1 r2)
                 (field_score token_set_ratio (address col_map) r1 r2)) 70);
    [discriminate|].
  intros E. inversion E; subst. simpl. split; [reflexivity | lia].
Qed.

(** C3, as the code has it: a pair visited in a block is accepted exactly
    when it passes the name floor (no name column in use, or a name score of
    at least 70) and its rounded overall score is at least 70; a pair that
    passes the name floor is therefore accepted at an overall score of 70 and
    rejected at 69, and an accepted pair carries that overall score. *)
Theorem pair_accepted_iff_both_floors
        (token_set_ratio : string -> string -> Z)
        (col_map : DeduplicationColumnMap) (r1 r2 : WorkRow) :
  let name_score := field_score token_set_ratio (customer_name col_map) r1 r2 in
  let addr_score := field_score token_set_ratio (address col_map) r1 r2 in
  let overall_sc := overall_score col_map name_score addr_score in
  let name_floor_passed :=
    truthy_opt (customer_name col_map) = false \/ 70 <= name_score in
  (is_some (score_pair token_set_ratio col_map r1 r2) = true <->
     name_floor_passed /\ 70 <= overall_sc) /\
  (name_floor_passed /\ overall_sc = 70 ->
     is_some (score_pair token_set_ratio col_map r1 r2) = true) /\
  (overall_sc = 69 -> score_pair token_set_ratio col_map r1 r2 = None) /\
  (forall sc, score_pair token_set_ratio col_map r1 r2 = Some sc ->
     overall sc = overall_sc /\ 70 <= overall sc).
Proof.
  intros name_score addr_score overall_sc name_floor_passed.
  unfold score_pair. fold name_score. fold addr_score. fold overall_sc.
  subst name_floor_passed.
  destruct (truthy_opt (customer_name col_map)); simpl;
    destruct (Z.ltb_spec name_score 70); destruct (Z.ltb_spec overall_sc 70);
    simpl; repeat split; intros; try discriminate; try lia; auto;
    try (match goal with H : _ /\ _ |- _ => destruct H as [[?|?] ?] end;
         try discriminate; lia);
    try (match goal with H : Some _ = Some _ |- _ => inversion H; subst end;
         simpl; lia).
  all: try (right; lia).
Qed.

(** C3, refuted as stated: in the sample table the rows at positions 2 and 3
    share a block and their rounded overall score is 70, yet the pair is
    rejected, since their name score is 60. *)
Lemma overall_70_rejected_below_name_floor :
  ~ (forall (df : DataFrame) (col_map : DeduplicationColumnMap)
            (i1 i2 : Z) (r1 r2 : WorkRow),
        In (i1, i2)
           (compared_pairs (build_blocks col_map (make_work df col_map))) ->
        loc (make_work df col_map) i1 = Ok r1 ->
        loc (make_work df col_map) i2 = Ok r2 ->
        (is_some (score_pair Sample.sample_ratio col_map r1 r2) = true <->
         70 <= overall_score col_map
                 (field_score Sample.sample_ratio (customer_name col_map) r1 r2)
                 (field_score Sample.sample_ratio (address col_map) r1 r2))).
Proof.
  intros H.
  destruct (loc (make_work Sample.customers Sample.name_address_city) 2)
    as [r1|] eqn:L1; [|discriminate L1].
  destruct (loc (make_work Sample.customers Sample.name_address_city) 3)
    as [r2|] eqn:L2; [|discriminate L2].
  specialize (H Sample.customers Sample.name_address_city 2 3 r1 r2).
  vm_compute in L1, L2. inversion L1; subst r1. inversion L2; subst r2.
  assert (Hin : In (2, 3)
                  (compared_pairs
                     (build_blocks Sample.name_address_city
                        (make_work Sample.customers Sample.name_address_city)))).
  { vm_compute. tauto. }
  destruct (H Hin eq_refl eq_refl) as [_ H2].
  assert (Hfalse : false = true).
  { apply H2. vm_compute. discriminate. }
  discriminate Hfalse.
Qed.

(** ** Input validation *)

Lemma mem_In (x : string) (l : list string) : mem x l = true <-> In x l.
Proof.
  unfold mem. rewrite existsb_exists. split.
  - intros [y [Hy E]]. apply String.eqb_eq in E. now subst.
  - intros H. exists x. split; [exact H | apply String.eqb_refl].
Qed.

Lemma validate_columns_Ok (columns mapped : list string) :
  (forall c, In c mapped -> In c columns) ->
  validate_columns columns mapped = Ok tt.
Proof.
  induction mapped as [|c mapped IH]; simpl; intros H; [reflexivity|].
  rewrite (proj2 (mem_In c columns)) by (apply H; now left).
  apply IH. intros c' Hc'. apply H. now right.
Qed.

Lemma cols_to_select_all (df : DataFrame) (col_map : DeduplicationColumnMap) :
  (forall c, In c (mapped_cols_from_user_file col_map) -> In c (df_columns df)) ->
  cols_to_select df col_map = mapped_cols_from_user_file col_map.
Proof.
  unfold cols_to_select. induction (mapped_cols_from_user_file col_map) as [|c l IH];
    simpl; intros H; [reflexivity|].
  rewrite (proj2 (mem_In c (df_columns df))) by (apply H; now left).
  f_equal. apply IH. intros c' Hc'. apply H. now right.
Qed.

(** Line 112 does not fail when no column is selected twice. *)
Lemma selected_twice_NoDup (selected : list string) (o : option string) :
  NoDup selected -> selected_twice selected o = false.
Proof.
  intros H. destruct o as [c|]; [|reflexivity]. unfold selected_twice.
  pose proof (proj1 (NoDup_count_occ string_dec selected) H c) as Hc.
  rewrite (proj2 (Nat.leb_gt 2 (count_occ string_dec selected c))) by lia.
  apply andb_false_r.
Qed.

Lemma reindex_fails_NoDup (col_map : DeduplicationColumnMap)
      (selected : list string) :
  NoDup selected -> reindex_fails col_map selected = false.
Proof.
  intros H. unfold reindex_fails. simpl.
  now rewrite !(selected_twice_NoDup _ _ H).
Qed.

(** C4, as the code has it: on a table with zero rows, when at least one
    logical field is mapped, no column is mapped to two logical fields and
    every mapped column exists in the table, the engine does not fail and
    returns the empty group list with block statistics that are all zero. *)
Theorem empty_table_gives_empty_result
        (token_set_ratio : string -> string -> Z)
        (argsort_desc : list Z -> list nat) (uuids : uuid_source)
        (df : DataFrame) (col_map : DeduplicationColumnMap) :
  df_rows df = [] ->
  mapped_cols_from_user_file col_map <> [] ->
  NoDup (mapped_cols_from_user_file col_map) ->
  (forall c, In c (mapped_cols_from_user_file col_map) -> In c (df_columns df)) ->
  build_duplicate_df token_set_ratio argsort_desc uuids df col_map
    = Ok ([], zero_block_stats).
Proof.
  intros Hrows Hmapped Hnodup Hcols. unfold build_duplicate_df.
  rewrite (validate_columns_Ok _ _ Hcols). simpl.
  rewrite (cols_to_select_all _ _ Hcols).
  rewrite (reindex_fails_NoDup _ _ Hnodup).
  destruct (mapped_cols_from_user_file col_map); [contradiction|].
  unfold make_work. rewrite Hrows. reflexivity.
Qed.

Lemma empty_table_gives_empty_result_witness :
  build_duplicate_df Sample.sample_ratio Sample.sample_argsort Sample.uuids_a
                     Sample.no_rows Sample.name_only
    = Ok ([], zero_block_stats).
Proof.
  apply empty_table_gives_empty_result.
  - reflexivity.
  - simpl. discriminate.
  - simpl. constructor; [intros []|constructor].
  - simpl. intros c [<-|[]]. now left.
Defined.

(** C4, refuted as stated: with zero rows and no field mapped every mapped
    column exists in the table, and the engine raises. *)
Lemma empty_table_without_mapping_raises :
  ~ (forall (df : DataFrame) (col_map : DeduplicationColumnMap),
        df_rows df = [] ->
        (forall c, In c (mapped_cols_from_user_file col_map) ->
                   In c (df_columns df)) ->
        build_duplicate_df Sample.sample_ratio Sample.sample_argsort
                           Sample.uuids_a df col_map
          = Ok ([], zero_block_stats)).
Proof.
  intros H. specialize (H Sample.no_rows no_field_mapped eq_refl).
  assert (E : build_duplicate_df Sample.sample_ratio Sample.sample_argsort
                Sample.uuids_a Sample.no_rows no_field_mapped
              = Ok ([], zero_block_stats)).
  { apply H. intros c []. }
  vm_compute in E. discriminate E.
Qed.

(** C5: with no logical field mapped the engine raises, whatever the table;
    the raised result carries neither groups nor block statistics. *)
Theorem no_field_mapped_raises
        (token_set_ratio : string -> string -> Z)
        (argsort_desc : list Z -> list nat) (uuids : uuid_source)
        (df : DataFrame) :
  build_duplicate_df token_set_ratio argsort_desc uuids df no_field_mapped
    = Raise NoValidColumns.
Proof. reflexivity. Qed.

(** ** Block keys and block membership *)

Lemma name_prefix_spec (col_map : DeduplicationColumnMap) (row : WorkRow) :
  name_prefix col_map row = spec_name_prefix col_map row.
Proof.
  unfold name_prefix, spec_name_prefix.
  destruct (customer_name col_map); simpl; [|reflexivity].
  destruct (customer_name_norm row); reflexivity.
Qed.

Lemma city_prefix_spec (col_map : DeduplicationColumnMap) (row : WorkRow) :
  city_prefix col_map row = spec_city_prefix col_map row.
Proof.
  unfold city_prefix, spec_city_prefix.
  destruct (city col_map); simpl; [|reflexivity].
  destruct (city_norm row) as [|c [|c' t]]; reflexivity.
Qed.

(** *** The working frame as a store *)

Lemma series_get_set_item_same (label : string) (v : pyval)
      (cs : list (string * pyval)) :
  series_get (set_item label v cs) label = Some v.
Proof.
  induction cs as [|[k x] cs IH]; simpl.
  - now rewrite String.eqb_refl.
  - destruct (String.eqb k label) eqn:E; simpl; now rewrite E.
Qed.

Lemma series_get_set_item_other (label : string) (v : pyval)
      (cs : list (string * pyval)) (c : string) :
  c <> label -> series_get (set_item label v cs) c = series_get cs c.
Proof.
  intros Hne. induction cs as [|[k x] cs IH]; simpl.
  - destruct (String.eqb label c) eqn:E; [|reflexivity].
    apply String.eqb_eq in E. now subst.
  - destruct (String.eqb k label) eqn:E; simpl.
    + apply String.eqb_eq in E. subst k.
      destruct (String.eqb label c) eqn:E'; [|reflexivity].
      apply String.eqb_eq in E'. now subst.
    + now rewrite IH.
Qed.

Lemma series_get_mem (cs : list (string * pyval)) (c : string) :
  mem c (map fst cs) = is_some (series_get cs c).
Proof.
  unfold mem. induction cs as [|[k x] cs IH]; simpl; [reflexivity|].
  rewrite (String.eqb_sym c k). destruct (String.eqb k c); [reflexivity|].
  exact IH.
Qed.

(** The normalized field of a row is [normalize] of the cell the row holds
    under the mapped column, and empty when the field has no usable
    column. *)
Lemma norm_column_selected (c : string) (cs : list (string * pyval))
      (v : pyval) :
  truthy c = true -> series_get cs c = Some v ->
  norm_column (Some c) cs = normalize v.
Proof.
  intros H1 H3. unfold norm_column. now rewrite H1, series_get_mem, H3.
Qed.


(** What a row of [work] holds under the five working labels. *)
Lemma make_row_working_cells (df : DataFrame) (col_map : DeduplicationColumnMap)
      (i : nat) (row : list pyval) :
  let r := make_row df col_map i row in
  series_get (cells r) "ExcelRow" = Some (PyInt (ExcelRow r)) /\
  series_get (cells r) "customer_name_norm"
    = Some (PyStr (customer_name_norm r)) /\
  series_get (cells r) "address_norm" = Some (PyStr (address_norm r)) /\
  series_get (cells r) "city_norm" = Some (PyStr (city_norm r)) /\
  series_get (cells r) "country_norm" = Some (PyStr (country_norm r)).
Proof.
  unfold make_row. cbn [cells ExcelRow customer_name_norm address_norm
                        city_norm country_norm].
  repeat split;
    repeat first [ apply series_get_set_item_same
                 | rewrite series_get_set_item_other by discriminate ].
Qed.

Lemma existsb_eqb_In (i : Z) (l : list Z) :
  existsb (Z.eqb i) l = true <-> In i l.
Proof.
  rewrite existsb_exists. split.
  - intros [y [Hy E]]. apply Z.eqb_eq in E. now subst.
  - intros H. exists i. split; [exact H | apply Z.eqb_refl].
Qed.

Lemma filter_unique {A B : Type} (f : A * B -> bool) (l : list (A * B))
      (k : A) (v : B) :
  NoDup (map fst l) -> In (k, v) l -> f (k, v) = true ->
  (forall k' v', In (k', v') l -> f (k', v') = true -> k' = k) ->
  filter f l = [(k, v)].
Proof.
  induction l as [|[k0 v0] l IH]; simpl; intros Hnd Hin Hf Hu; [destruct Hin|].
  inversion Hnd as [|? ? Hk0 Hnd']; subst.
  assert (Hrest : forall k' v', In (k', v') l -> f (k', v') = true -> k' = k)
    by (intros; eapply Hu; eauto).
  destruct Hin as [E|Hin].
  - inversion E; subst. rewrite Hf. f_equal.
    clear IH Hu Hnd Hnd'. induction l as [|[k1 v1] l IHl]; simpl; [reflexivity|].
    destruct (f (k1, v1)) eqn:F.
    + exfalso. apply Hk0. simpl. left. eapply Hrest; [now left | exact F].
    + apply IHl.
      * intros Hc. apply Hk0. now right.
      * intros k' v' H1 H2. eapply Hrest; [now right; exact H1 | exact H2].
  - destruct (f (k0, v0)) eqn:F.
    + exfalso. apply Hk0. assert (k0 = k) by (eapply Hu; [now left | exact F]).
      subst. change k with (fst (k, v)). now apply in_map.
    + now apply IH.
Qed.

Lemma count_occ_sorted (l : list Z) (i : Z) :
  StronglySorted Z.lt l -> In i l -> count_occ Z.eq_dec l i = 1%nat.
Proof.
  induction l as [|x l IH]; simpl; intros Hs Hin; [destruct Hin|].
  inversion Hs as [|? ? Hs' Hx]; subst. rewrite Forall_forall in Hx.
  destruct (Z.eq_dec x i) as [->|Hne].
  - f_equal. apply count_occ_not_In. intros Hc. specialize (Hx _ Hc). lia.
  - destruct Hin as [E|Hin]; [contradiction | now apply IH].
Qed.

(** C6: the block key of every record is [name_prefix ++ "_" ++ city_prefix],
    where the name prefix is the first four characters of the normalized
    name (shorter when the name is) if a name column is mapped and the
    normalized name is not empty and "xxxx" otherwise, and the city prefix
    is the first character of the normalized city under the same conditions
    and "y" otherwise; and the record is listed in exactly one block, the
    one of its key, once. *)
Theorem block_key_and_unique_block
        (df : DataFrame) (col_map : DeduplicationColumnMap)
        (i : nat) (row : list pyval) :
  nth_error (df_rows df) i = Some row ->
  let r := make_row df col_map i row in
  let blocks := build_blocks col_map (make_work df col_map) in
  block_key col_map r
    = (spec_name_prefix col_map r ++ "_" ++ spec_city_prefix col_map r)%string /\
  exists idxs,
    blocks_of (Z.of_nat i) blocks = [(block_key col_map r, idxs)] /\
    count_occ Z.eq_dec idxs (Z.of_nat i) = 1%nat.
Proof.
  intros Hrow r blocks. split.
  - unfold block_key. now rewrite name_prefix_spec, city_prefix_spec.
  - pose proof (make_work_indexed df col_map) as Hi.
    destruct (build_blocks_inv col_map _ Hi) as [Hnd [Hblk Hrows]].
    assert (Hr : In r (make_work df col_map)).
    { apply (nth_error_In _ i). rewrite make_work_nth, Hrow. reflexivity. }
    destruct (Hrows r Hr) as [idxs [Hb Hidx]].
    change (ExcelRow r) with (Z.of_nat i) in Hidx.
    exists idxs. split.
    + apply filter_unique; [exact Hnd | exact Hb | now apply existsb_eqb_In |].
      intros k' v' Hin Hex. simpl in Hex. apply existsb_eqb_In in Hex.
      destruct (Hblk _ _ Hin) as [_ Hm].
      destruct (Hm _ Hex) as [r' [Hr' [E K]]].
      rewrite <- K. f_equal.
      apply (indexed_inj _ _ _ Hi Hr' Hr). exact E.
    + apply count_occ_sorted; [|exact Hidx].
      now destruct (Hblk _ _ Hb).
Qed.

Lemma block_key_and_unique_block_witness :
  let r := make_row Sample.customers Sample.name_address_city 2
             [PyStr "abcdef1234"; PyStr "abcdefgh12"; PyStr "Austin"] in
  let blocks :=
    build_blocks Sample.name_address_city
      (make_work Sample.customers Sample.name_address_city) in
  block_key Sample.name_address_city r
    = (spec_name_prefix Sample.name_address_city r ++ "_"
       ++ spec_city_prefix Sample.name_address_city r)%string /\
  exists idxs,
    blocks_of 2 blocks = [(block_key Sample.name_address_city r, idxs)] /\
    count_occ Z.eq_dec idxs 2 = 1%nat.
Proof.
  apply (block_key_and_unique_block Sample.customers Sample.name_address_city 2).
  reflexivity.
Defined.

(** ** What the returned groups hold *)

Section OutputFacts.

Variable token_set_ratio : string -> string -> Z.
Variable argsort_desc : list Z -> list nat.
Variable uuids : uuid_source.
Variable df : DataFrame.
Variable col_map : DeduplicationColumnMap.

Let work := make_work df col_map.
Let blocks := build_blocks col_map work.

(** Every duplicate of every returned group was made for two rows of the
    frame that the loop visited as a pair and that passed the thresholds. *)
Lemma duplicates_provenance (groups : list MasterRecord) (stats : BlockStats)
      (g : MasterRecord) (d : DuplicateRecordDetail) :
  build_duplicate_df token_set_ratio argsort_desc uuids df col_map
    = Ok (groups, stats) ->
  In g groups -> In d (Duplicates g) ->
  exists r1 r2 sc u,
    In r1 work /\ In r2 work /\
    In (ExcelRow r1, ExcelRow r2) (compared_pairs blocks) /\
    score_pair token_set_ratio col_map r1 r2 = Some sc /\
    d = dup_detail col_map r2 sc u /\
    MasterRow g = ExcelRow r1 + 2.
Proof.
  intros Hrun Hg Hd.
  destruct (groups_from_entries _ _ _ _ _ _ _ _ Hrun Hg) as [e [-> [_ Hall]]].
  simpl in Hd. rewrite Forall_forall in Hall.
  destruct (Hall d Hd) as [i1 [i2 [r1 [r2 [sc [u [Hp [L1 [L2 [Hs [-> Hk]]]]]]]]]]].
  pose proof (make_work_indexed df col_map) as Hi.
  destruct (loc_Ok _ _ _ Hi L1) as [Hr1 E1], (loc_Ok _ _ _ Hi L2) as [Hr2 E2].
  exists r1, r2, sc, u. subst i1 i2. repeat split; auto.
Qed.

End OutputFacts.


(** C9: every duplicate of every returned group has an overall score of at
    least 70 and is flagged low-confidence exactly when that score is below
    90: not at 90, and at 89. *)
Theorem low_confidence_iff_below_90
        (token_set_ratio : string -> string -> Z)
        (argsort_desc : list Z -> list nat) (uuids : uuid_source)
        (df : DataFrame) (col_map : DeduplicationColumnMap)
        (groups : list MasterRecord) (stats : BlockStats)
        (g : MasterRecord) (d : DuplicateRecordDetail) :
  build_duplicate_df token_set_ratio argsort_desc uuids df col_map
    = Ok (groups, stats) ->
  In g groups -> In d (Duplicates g) ->
  70 <= Overall_score d /\
  (IsLowConfidence d = true <-> Overall_score d < 90) /\
  (Overall_score d = 90 -> IsLowConfidence d = false) /\
  (Overall_score d = 89 -> IsLowConfidence d = true).
Proof.
  intros Hrun Hg Hd.
  destruct (duplicates_provenance _ _ _ _ _ _ _ _ _ Hrun Hg Hd)
    as [r1 [r2 [sc [u [_ [_ [_ [Hs [-> _]]]]]]]]].
  destruct (accepted_pair_overall token_set_ratio col_map r1 r2 sc Hs)
    as [_ Hge].
  simpl. split; [exact Hge|]. split; [apply Z.ltb_lt|].
  split; intros E; rewrite E; reflexivity.
Qed.


(** ** Rounding *)

Lemma py_truediv_parts (a b : Z) :
  0 < b ->
  Qnum (py_truediv a b) = a /\ Zpos (Qden (py_truediv a b)) = b.
Proof.
  intros Hb. destruct b as [|p|p]; try lia.
  unfold py_truediv, Qdiv, Qinv, Qmult, inject_Z. simpl.
  split; [apply Z.mul_1_r | reflexivity].
Qed.

(** [round] of a quotient is an integer nearest to it, the even one at a
    tie. *)
Lemma py_round_nearest (a b : Z) :
  0 < b ->
  let z := py_round (py_truediv a b) in
  2 * Z.abs (a - z * b) <= b /\
  (2 * Z.abs (a - z * b) = b -> Z.even z = true).
Proof.
  intros Hb z. subst z. unfold py_round.
  destruct (py_truediv_parts a b Hb) as [-> ->].
  pose proof (Z.div_mod a b ltac:(lia)) as Hdm.
  pose proof (Z.mod_pos_bound a b Hb) as Hr.
  set (f := a / b) in *. set (r := a mod b) in *.
  destruct (Z.ltb_spec (2 * r) b); [split; [nia | intros; nia]|].
  destruct (Z.ltb_spec b (2 * r)); [split; [nia | intros; nia]|].
  destruct (Z.even f) eqn:Ev; [split; [nia | auto]|].
  split; [nia|]. intros _. rewrite Z.even_add, Ev. reflexivity.
Qed.

(** ** Finalization and ordering *)

Lemma take_map {A B : Type} (f : A -> B) (indexer : list nat) (l : list A) :
  map f (take indexer l) = take indexer (map f l).
Proof.
  unfold take. induction indexer as [|i indexer IH]; simpl; [reflexivity|].
  rewrite map_app, IH, nth_error_map. now destruct (nth_error l i).
Qed.

Lemma take_keys (keys : list Z) (indexer : list nat) :
  (forall i, In i indexer -> (i < List.length keys)%nat) ->
  take indexer keys = map (fun i => nth i keys 0) indexer.
Proof.
  unfold take. induction indexer as [|i indexer IH]; simpl; intros H; [reflexivity|].
  rewrite IH by (intros; apply H; now right).
  destruct (nth_error keys i) as [x|] eqn:E.
  - simpl. f_equal. symmetry. now apply nth_error_nth.
  - apply nth_error_None in E. specialize (H i (or_introl eq_refl)). lia.
Qed.

Lemma sort_values_sorted (argsort_desc : list Z -> list nat)
      (masters_list : list MasterRecord) :
  argsort_contract argsort_desc ->
  StronglySorted Z.ge
    (map AvgSimilarity
         (sort_values_AvgSimilarity_desc argsort_desc masters_list)).
Proof.
  intros Hc. unfold sort_values_AvgSimilarity_desc.
  destruct (Hc (map AvgSimilarity masters_list)) as [Hperm Hsorted].
  rewrite take_map, take_keys; [exact Hsorted|].
  intros i Hi. apply (Permutation_in _ Hperm) in Hi. apply in_seq in Hi. lia.
Qed.

(** The sort only reorders. *)

Lemma take_all {A : Type} (l1 l2 : list A) :
  take (seq (List.length l1) (List.length l2)) (l1 ++ l2) = l2.
Proof.
  unfold take. revert l1. induction l2 as [|x l2 IH]; intros l1; [reflexivity|].
  cbn [List.length seq flat_map].
  rewrite nth_error_app2, Nat.sub_diag by lia. cbn [nth_error app].
  f_equal. specialize (IH (l1 ++ [x])%list).
  rewrite length_app, <- app_assoc in IH. cbn [List.length app] in IH.
  rewrite Nat.add_1_r in IH. exact IH.
Qed.

Lemma take_permutation {A : Type} (indexer : list nat) (l : list A) :
  Permutation indexer (seq 0 (List.length l)) -> Permutation (take indexer l) l.
Proof.
  intros Hp. unfold take.
  rewrite (Permutation_flat_map _ Hp).
  change (Permutation (take (seq (List.length (@nil A)) (List.length l)) ([] ++ l)) l).
  now rewrite take_all.
Qed.

(** Under the contract of the sort the returned groups are the finalized
    entries of the dict, reordered. *)
Lemma groups_permutation
      (token_set_ratio : string -> string -> Z)
      (argsort_desc : list Z -> list nat) (uuids : uuid_source)
      (df : DataFrame) (col_map : DeduplicationColumnMap)
      (groups : list MasterRecord) (stats : BlockStats) :
  argsort_contract argsort_desc ->
  build_duplicate_df token_set_ratio argsort_desc uuids df col_map
    = Ok (groups, stats) ->
  exists st,
    for_each (compare_pair token_set_ratio uuids col_map (make_work df col_map))
             (compared_pairs (build_blocks col_map (make_work df col_map)))
             {| master_records_dict := []; uuids_drawn := 0 |} = Ok st /\
    Permutation groups
      (map (fun kv => finalize (snd kv)) (master_records_dict st)).
Proof.
  intros Hc Hrun. apply build_duplicate_df_Ok in Hrun.
  destruct Hrun as [st [Hloop [_ ->]]]. exists st. split; [exact Hloop|].
  destruct (map _ (master_records_dict st)) as [|m l] eqn:E; [reflexivity|].
  unfold sort_values_AvgSimilarity_desc. apply take_permutation.
  destruct (Hc (map AvgSimilarity (m :: l))) as [Hp _].
  now rewrite length_map in Hp.
Qed.

(** C8: pandas sorting as it documents, the returned groups are the
    finalized entries of the dict the comparison loop ends with, all of
    them and each once, in descending order of [AvgSimilarity]; every
    returned group has a duplicate list that is not empty, [DuplicateCount]
    is its length, [AvgSimilarity] is [round] of the mean of the
    [Overall_score] of its duplicates, and [IsLowConfidenceGroup] holds
    exactly when one of its duplicates is low-confidence. *)
Theorem groups_finalized_and_sorted
        (token_set_ratio : string -> string -> Z)
        (argsort_desc : list Z -> list nat) (uuids : uuid_source)
        (df : DataFrame) (col_map : DeduplicationColumnMap)
        (groups : list MasterRecord) (stats : BlockStats) :
  argsort_contract argsort_desc ->
  build_duplicate_df token_set_ratio argsort_desc uuids df col_map
    = Ok (groups, stats) ->
  (exists st,
     for_each (compare_pair token_set_ratio uuids col_map (make_work df col_map))
              (compared_pairs (build_blocks col_map (make_work df col_map)))
              {| master_records_dict := []; uuids_drawn := 0 |} = Ok st /\
     Permutation groups
       (map (fun kv => finalize (snd kv)) (master_records_dict st))) /\
  (forall g, In g groups ->
     Duplicates g <> [] /\
     DuplicateCount g = py_len (Duplicates g) /\
     AvgSimilarity g = py_round (mean (map Overall_score (Duplicates g))) /\
     (IsLowConfidenceGroup g = true <->
      exists d, In d (Duplicates g) /\ IsLowConfidence d = true)) /\
  StronglySorted Z.ge (map AvgSimilarity groups).
Proof.
  intros Hc Hrun. split; [exact (groups_permutation _ _ _ _ _ _ _ Hc Hrun)|].
  split.
  - intros g Hg.
    destruct (groups_from_entries _ _ _ _ _ _ _ _ Hrun Hg) as [e [-> [Hne _]]].
    simpl. split; [exact Hne|]. split; [reflexivity|]. split.
    + unfold mean. destruct (entry_Duplicates e); [contradiction | reflexivity].
    + apply existsb_exists.
  - apply build_duplicate_df_Ok in Hrun. destruct Hrun as [st [_ [_ ->]]].
    destruct (map _ (master_records_dict st)) eqn:E; [constructor|].
    now apply sort_values_sorted.
Qed.

(** ** The sample instance meets the contract of the sort *)

Lemma insert_desc_perm (keys : list Z) (i : nat) (l : list nat) :
  Permutation (Sample.insert_desc keys i l) (i :: l).
Proof.
  induction l as [|j l IH]; simpl; [reflexivity|].
  destruct (nth j keys 0 <=? nth i keys 0); [reflexivity|].
  rewrite IH. apply perm_swap.
Qed.

Lemma insert_desc_sorted (keys : list Z) (i : nat) (l : list nat) :
  StronglySorted Z.ge (map (fun i => nth i keys 0) l) ->
  StronglySorted Z.ge (map (fun i => nth i keys 0) (Sample.insert_desc keys i l)).
Proof.
  induction l as [|j l IH]; simpl; intros Hs.
  - constructor; constructor.
  - inversion Hs as [|? ? Hs' Hj]; subst.
    destruct (Z.leb_spec (nth j keys 0) (nth i keys 0)).
    + simpl. constructor; [exact Hs|].
      constructor; [lia|]. eapply Forall_impl; [|exact Hj]. simpl. intros; lia.
    + simpl. constructor; [now apply IH|].
      eapply Permutation_Forall.
      * apply Permutation_map. symmetry. apply insert_desc_perm.
      * simpl. constructor; [lia | exact Hj].
Qed.

Lemma sample_argsort_contract : argsort_contract Sample.sample_argsort.
Proof.
  intros keys. unfold Sample.sample_argsort.
  generalize (seq 0 (List.length keys)). intros l. split.
  - induction l as [|i l IH]; simpl; [reflexivity|].
    rewrite insert_desc_perm. now constructor.
  - induction l as [|i l IH]; simpl; [constructor|].
    now apply insert_desc_sorted.
Qed.

(** ** The engine on the sample table *)

Lemma customers_run :
  build_duplicate_df Sample.sample_ratio Sample.sample_argsort Sample.uuids_a
                     Sample.customers Sample.name_address_city
    = Ok (Sample.customers_groups, Sample.customers_stats).
Proof. vm_compute. reflexivity. Qed.

Lemma groups_finalized_and_sorted_witness :
  (exists st,
     for_each (compare_pair Sample.sample_ratio Sample.uuids_a
                            Sample.name_address_city
                            (make_work Sample.customers Sample.name_address_city))
              (compared_pairs
                 (build_blocks Sample.name_address_city
                    (make_work Sample.customers Sample.name_address_city)))
              {| master_records_dict := []; uuids_drawn := 0 |} = Ok st /\
     Permutation Sample.customers_groups
       (map (fun kv => finalize (snd kv)) (master_records_dict st))) /\
  (forall g, In g Sample.customers_groups ->
     Duplicates g <> [] /\
     DuplicateCount g = py_len (Duplicates g) /\
     AvgSimilarity g = py_round (mean (map Overall_score (Duplicates g))) /\
     (IsLowConfidenceGroup g = true <->
      exists d, In d (Duplicates g) /\ IsLowConfidence d = true)) /\
  StronglySorted Z.ge (map AvgSimilarity Sample.customers_groups).
Proof.
  apply (groups_finalized_and_sorted
           Sample.sample_ratio Sample.sample_argsort Sample.uuids_a
           Sample.customers Sample.name_address_city
           Sample.customers_groups Sample.customers_stats).
  - exact sample_argsort_contract.
  - vm_compute. reflexivity.
Defined.


Lemma low_confidence_iff_below_90_witness :
  exists g d,
    In g Sample.customers_groups /\ In d (Duplicates g) /\
    Overall_score d = 77 /\
    70 <= Overall_score d /\
    (IsLowConfidence d = true <-> Overall_score d < 90) /\
    (Overall_score d = 90 -> IsLowConfidence d = false) /\
    (Overall_score d = 89 -> IsLowConfidence d = true).
Proof.
  eexists. eexists.
  split; [right; left; reflexivity|].
  split; [left; reflexivity|].
  split; [reflexivity|].
  eapply (low_confidence_iff_below_90
           Sample.sample_ratio Sample.sample_argsort Sample.uuids_a
           Sample.customers Sample.name_address_city
           Sample.customers_groups Sample.customers_stats).
  - vm_compute. reflexivity.
  - right; left; reflexivity.
  - left; reflexivity.
Defined.


(** ** Identifiers and determinism *)

Lemma dict_mem_erase (key : Z) (d : list (Z * MasterEntry)) :
  dict_mem key (erase_dict d) = dict_mem key d.
Proof.
  induction d as [|[k e] d IH]; simpl; [reflexivity | now rewrite IH].
Qed.

Lemma erase_append_duplicate (key : Z) (dup : DuplicateRecordDetail)
      (d : list (Z * MasterEntry)) :
  erase_dict (append_duplicate key dup d) =
  append_duplicate key (erase_uid dup) (erase_dict d).
Proof.
  induction d as [|[k e] d IH]; simpl; [reflexivity|].
  destruct (k =? key); simpl.
  - unfold erase_entry at 1. simpl. now rewrite map_app.
  - now rewrite IH.
Qed.

Lemma erase_dup_detail (col_map : DeduplicationColumnMap) (r2 : WorkRow)
      (sc : PairScores) (u u' : string) :
  erase_uid (dup_detail col_map r2 sc u) = erase_uid (dup_detail col_map r2 sc u').
Proof. reflexivity. Qed.

Lemma compare_pair_same_up_to_uids
      (token_set_ratio : string -> string -> Z) (uuids1 uuids2 : uuid_source)
      (col_map : DeduplicationColumnMap) (work : list WorkRow)
      (s1 s2 : LoopState) (pair : Z * Z) :
  same_up_to_uids s1 s2 ->
  related same_up_to_uids
    (compare_pair token_set_ratio uuids1 col_map work s1 pair)
    (compare_pair token_set_ratio uuids2 col_map work s2 pair).
Proof.
  intros HR. unfold compare_pair.
  destruct (loc work (fst pair)) as [r1|]; simpl; [|reflexivity].
  destruct (loc work (snd pair)) as [r2|]; simpl; [|reflexivity].
  destruct (score_pair token_set_ratio col_map r1 r2) as [sc|]; [|exact HR].
  assert (Hm : dict_mem (ExcelRow r1 + 2) (master_records_dict s1)
               = dict_mem (ExcelRow r1 + 2) (master_records_dict s2)).
  { rewrite <- (dict_mem_erase _ (master_records_dict s1)), HR.
    apply dict_mem_erase. }
  rewrite Hm. unfold same_up_to_uids in *.
  destruct (dict_mem _ (master_records_dict s2)); simpl;
    rewrite !erase_append_duplicate.
  - rewrite HR. f_equal.
  - unfold erase_dict in *. rewrite !map_app, HR. reflexivity.
Qed.

Lemma finalize_erase (e : MasterEntry) :
  erase_master_uids (finalize e) = finalize (erase_entry e).
Proof.
  unfold finalize, erase_master_uids, erase_entry. simpl.
  rewrite map_map. simpl.
  assert (Hex : existsb IsLowConfidence (map erase_uid (entry_Duplicates e))
                = existsb IsLowConfidence (entry_Duplicates e)).
  { induction (entry_Duplicates e) as [|d l IH]; simpl; [reflexivity | now rewrite IH]. }
  rewrite Hex. unfold py_len. rewrite !length_map. reflexivity.
Qed.

Lemma masters_erase (d : list (Z * MasterEntry)) :
  map erase_master_uids (map (fun kv => finalize (snd kv)) d) =
  map (fun kv => finalize (snd kv)) (erase_dict d).
Proof.
  unfold erase_dict. rewrite !map_map. apply map_ext.
  intros kv. apply finalize_erase.
Qed.

Lemma AvgSimilarity_erase (l : list MasterRecord) :
  map AvgSimilarity (map erase_master_uids l) = map AvgSimilarity l.
Proof. rewrite map_map. reflexivity. Qed.

(** The ordering step looks at the key column only. *)
Lemma results_erase (argsort_desc : list Z -> list nat) (l : list MasterRecord) :
  map erase_master_uids
      (match l with
       | [] => []
       | _ :: _ => sort_values_AvgSimilarity_desc argsort_desc l
       end) =
  match map erase_master_uids l with
  | [] => []
  | _ :: _ =>
      sort_values_AvgSimilarity_desc argsort_desc (map erase_master_uids l)
  end.
Proof.
  destruct l as [|m l]; [reflexivity|].
  cbn [map]. unfold sort_values_AvgSimilarity_desc.
  rewrite take_map.
  change (erase_master_uids m :: map erase_master_uids l)
    with (map erase_master_uids (m :: l)).
  now rewrite AvgSimilarity_erase.
Qed.

(** C1, as the code has it: two invocations on the same table and mapping
    agree on whether they fail, on the block statistics, on the order of
    the groups and on every field of every group and duplicate record other
    than the identifiers [uid] and [master_uid], which each invocation draws
    afresh. *)
Theorem output_determined_up_to_uids
        (token_set_ratio : string -> string -> Z)
        (argsort_desc : list Z -> list nat)
        (uuids1 uuids2 : uuid_source)
        (df : DataFrame) (col_map : DeduplicationColumnMap) :
  erase_uids (build_duplicate_df token_set_ratio argsort_desc uuids1 df col_map) =
  erase_uids (build_duplicate_df token_set_ratio argsort_desc uuids2 df col_map).
Proof.
  unfold build_duplicate_df.
  destruct (validate_columns _ _); simpl; [|reflexivity].
  destruct (cols_to_select df col_map) as [|c0 sel]; [reflexivity|].
  destruct (reindex_fails col_map (c0 :: sel)); [reflexivity|].
  rewrite !compare_blocks_visits_compared_pairs.
  set (work := make_work df col_map).
  set (pairs := compared_pairs (build_blocks col_map work)).
  set (s0 := {| master_records_dict := []; uuids_drawn := 0 |}).
  pose proof (for_each_related same_up_to_uids
                (compare_pair token_set_ratio uuids1 col_map work)
                (compare_pair token_set_ratio uuids2 col_map work)
                (fun s1 s2 x HR =>
                   compare_pair_same_up_to_uids token_set_ratio uuids1 uuids2
                     col_map work s1 s2 x HR)
                pairs s0 s0 eq_refl) as HR.
  destruct (for_each _ pairs s0) as [st1|e1],
           (for_each (compare_pair token_set_ratio uuids2 col_map work) pairs s0)
             as [st2|e2]; simpl in HR; try contradiction; simpl.
  - rewrite !results_erase, !masters_erase. unfold same_up_to_uids in HR.
    now rewrite HR.
  - now subst.
Qed.

(** C1, refuted as stated: on the sample table two invocations that draw
    different identifiers return different outputs. *)
Lemma outputs_differ_in_uids :
  ~ (forall (uuids1 uuids2 : uuid_source) (df : DataFrame)
            (col_map : DeduplicationColumnMap),
        build_duplicate_df Sample.sample_ratio Sample.sample_argsort
                           uuids1 df col_map =
        build_duplicate_df Sample.sample_ratio Sample.sample_argsort
                           uuids2 df col_map).
Proof.
  intros H.
  specialize (H Sample.uuids_a Sample.uuids_b Sample.customers Sample.name_only).
  vm_compute in H. discriminate H.
Qed.

(** ** Totality *)


(** * Further properties of the engine *)

Import Terms.

(** ** Sums and rounding within bounds *)

Lemma py_sum_from (l : list Z) (a : Z) : fold_left Z.add l a = a + py_sum l.
Proof.
  unfold py_sum. revert a. induction l as [|x l IH]; intros a; simpl; [lia|].
  rewrite (IH (a + x)), (IH x). lia.
Qed.

Lemma py_sum_cons (x : Z) (l : list Z) : py_sum (x :: l) = x + py_sum l.
Proof. unfold py_sum at 1. simpl. apply py_sum_from. Qed.

Lemma py_len_cons {A : Type} (x : A) (l : list A) : py_len (x :: l) = 1 + py_len l.
Proof. unfold py_len. simpl List.length. lia. Qed.

Lemma py_sum_between (lo hi : Z) (l : list Z) :
  Forall (fun x => lo <= x <= hi) l ->
  lo * py_len l <= py_sum l <= hi * py_len l.
Proof.
  induction 1 as [|x l Hx Hl IH].
  - unfold py_len, py_sum. simpl. lia.
  - rewrite py_sum_cons, py_len_cons. lia.
Qed.

Lemma py_round_between (lo hi s n : Z) :
  0 < n -> lo * n <= s <= hi * n ->
  lo <= py_round (py_truediv s n) <= hi.
Proof.
  intros Hn Hs. unfold py_round.
  destruct (py_truediv_parts s n Hn) as [-> ->].
  pose proof (Z.div_mod s n ltac:(lia)) as Hdm.
  pose proof (Z.mod_pos_bound s n Hn) as Hr.
  set (f := s / n) in *. set (r := s mod n) in *.
  assert (lo <= f) by nia.
  assert (f <= hi) by nia.
  destruct (Z.ltb_spec (2 * r) n); [lia|].
  assert (f + 1 <= hi) by nia.
  destruct (n <? 2 * r); [lia|]. destruct (Z.even f); lia.
Qed.

Lemma round_mean_between (lo hi : Z) (l : list Z) :
  l <> [] -> Forall (fun x => lo <= x <= hi) l ->
  lo <= py_round (mean l) <= hi.
Proof.
  intros Hne Hl. unfold mean. apply py_round_between.
  - destruct l; [contradiction|]. rewrite py_len_cons. unfold py_len. lia.
  - now apply py_sum_between.
Qed.

Lemma py_sum_lower (lo : Z) (l : list Z) :
  Forall (fun x => lo <= x) l -> lo * py_len l <= py_sum l.
Proof.
  induction 1 as [|x l Hx Hl IH].
  - unfold py_len, py_sum. simpl. lia.
  - rewrite py_sum_cons, py_len_cons. lia.
Qed.

Lemma round_mean_lower (lo : Z) (l : list Z) :
  l <> [] -> Forall (fun x => lo <= x) l -> lo <= py_round (mean l).
Proof.
  intros Hne Hl. unfold mean.
  assert (Hn : 0 < py_len l).
  { destruct l; [contradiction|]. rewrite py_len_cons. unfold py_len. lia. }
  pose proof (py_sum_lower lo l Hl) as Hs.
  set (hi := Z.abs (py_sum l) + Z.abs lo).
  assert (0 <= hi * (py_len l - 1)) by (subst hi; nia).
  apply (py_round_between lo hi _ _ Hn). subst hi. split; [exact Hs | lia].
Qed.

Lemma py_round_whole (x : Z) : py_round (py_truediv x 1) = x.
Proof.
  unfold py_round. destruct (py_truediv_parts x 1 ltac:(lia)) as [-> ->].
  rewrite Z.div_1_r, Z.mod_1_r. reflexivity.
Qed.

(** ** What an accepted pair carries *)

Lemma score_pair_Some (token_set_ratio : string -> string -> Z)
      (col_map : DeduplicationColumnMap) (r1 r2 : WorkRow) (sc : PairScores) :
  score_pair token_set_ratio col_map r1 r2 = Some sc ->
  name_s sc = field_score token_set_ratio (customer_name col_map) r1 r2 /\
  addr_s sc = field_score token_set_ratio (address col_map) r1 r2 /\
  overall sc = overall_score col_map (name_s sc) (addr_s sc) /\
  (truthy_opt (customer_name col_map) = true -> 70 <= name_s sc) /\
  70 <= overall sc.
Proof.
  unfold score_pair.
  destruct (truthy_opt (customer_name col_map)) eqn:T; simpl.
  - destruct (Z.ltb_spec
                (field_score token_set_ratio (customer_name col_map) r1 r2) 70);
      [discriminate|].
    destruct (Z.ltb_spec (overall_score col_map
                (field_score token_set_ratio (customer_name col_map) r1 r2)
                (field_score token_set_ratio (address col_map) r1 r2)) 70);
      [discriminate|].
    intros E. inversion E; subst. simpl. repeat split; auto.
  - destruct (Z.ltb_spec (overall_score col_map
                (field_score token_set_ratio (customer_name col_map) r1 r2)
                (field_score token_set_ratio (address col_map) r1 r2)) 70);
      [discriminate|].
    intros E. inversion E; subst. simpl. repeat split; auto. discriminate.
Qed.

Lemma field_score_between (token_set_ratio : string -> string -> Z)
      (column : option string) (r1 r2 : WorkRow) :
  bounded_ratio token_set_ratio ->
  0 <= field_score token_set_ratio column r1 r2 <= 100.
Proof.
  intros Hb. unfold field_score.
  destruct column as [c|]; [|lia]. destruct (truthy c); [|lia].
  destruct (series_get (cells r1) c) as [a|]; [|lia].
  destruct (series_get (cells r2) c) as [b|]; [|lia].
  unfold neo_token_set_ratio. destruct a, b; try lia; apply Hb.
Qed.

Lemma overall_score_between (col_map : DeduplicationColumnMap) (n a : Z) :
  0 <= n <= 100 -> 0 <= a <= 100 -> 0 <= overall_score col_map n a <= 100.
Proof.
  intros Hn Ha. unfold overall_score.
  destruct (truthy_opt (customer_name col_map)), (truthy_opt (address col_map));
    simpl; try lia; apply py_round_between;
    rewrite ?py_sum_cons; unfold py_len, py_sum; simpl; lia.
Qed.

(** ** Errors of the engine *)


Lemma validate_columns_first_missing (columns before after : list string)
      (c : string) :
  (forall b, In b before -> In b columns) -> ~ In c columns ->
  validate_columns columns (before ++ c :: after)
    = Raise (MappedColumnNotFound c columns).
Proof.
  intros Hb Hc. induction before as [|x before IH]; simpl.
  - destruct (mem c columns) eqn:M; [|reflexivity].
    apply mem_In in M. contradiction.
  - rewrite (proj2 (mem_In x columns)) by (apply Hb; now left).
    apply IH. intros b Hin. apply Hb. now right.
Qed.

(** X1: when a mapped column is absent from the table, the engine raises
    for the first such column in the order customer_name, address, city,
    country, tpi, and reports the columns the table has. *)
Theorem missing_mapped_column_raises
        (token_set_ratio : string -> string -> Z)
        (argsort_desc : list Z -> list nat) (uuids : uuid_source)
        (df : DataFrame) (col_map : DeduplicationColumnMap)
        (before after : list string) (c : string) :
  mapped_cols_from_user_file col_map = (before ++ c :: after)%list ->
  (forall b, In b before -> In b (df_columns df)) ->
  ~ In c (df_columns df) ->
  build_duplicate_df token_set_ratio argsort_desc uuids df col_map
    = Raise (MappedColumnNotFound c (df_columns df)).
Proof.
  intros Hm Hb Hc. unfold build_duplicate_df.
  now rewrite Hm, (validate_columns_first_missing _ _ _ _ Hb Hc).
Qed.

Lemma missing_mapped_column_raises_witness :
  build_duplicate_df Sample.sample_ratio Sample.sample_argsort Sample.uuids_a
                     Sample.customers Cases.with_country
    = Raise (MappedColumnNotFound "Country"%string (df_columns Sample.customers)).
Proof.
  apply (missing_mapped_column_raises
           Sample.sample_ratio Sample.sample_argsort Sample.uuids_a
           Sample.customers Cases.with_country ["Name"%string] []).
  - reflexivity.
  - intros b [<-|[]]. simpl. now left.
  - simpl. intros [H|[H|[H|[]]]]; discriminate H.
Defined.





(** ** Scoring *)

Lemma neo_token_set_ratio_sym (token_set_ratio : string -> string -> Z)
      (a b : pyval) :
  symmetric_ratio token_set_ratio ->
  neo_token_set_ratio token_set_ratio a b = neo_token_set_ratio token_set_ratio b a.
Proof. intros Hs. destruct a, b; simpl; auto. Qed.

Lemma field_score_sym (token_set_ratio : string -> string -> Z)
      (column : option string) (r1 r2 : WorkRow) :
  symmetric_ratio token_set_ratio ->
  field_score token_set_ratio column r1 r2 = field_score token_set_ratio column r2 r1.
Proof.
  intros Hs. unfold field_score.
  destruct column as [c|]; [|reflexivity]. destruct (truthy c); [|reflexivity].
  destruct (series_get (cells r1) c), (series_get (cells r2) c); try reflexivity.
  now apply neo_token_set_ratio_sym.
Qed.

(** X3: with a symmetric similarity measure the decision on a pair and its
    three scores do not depend on which record comes first. *)
Theorem score_pair_symmetric
        (token_set_ratio : string -> string -> Z)
        (col_map : DeduplicationColumnMap) (r1 r2 : WorkRow) :
  symmetric_ratio token_set_ratio ->
  score_pair token_set_ratio col_map r1 r2 = score_pair token_set_ratio col_map r2 r1.
Proof.
  intros Hs. unfold score_pair.
  now rewrite (field_score_sym _ (customer_name col_map) r1 r2 Hs),
              (field_score_sym _ (address col_map) r1 r2 Hs).
Qed.

Lemma exact_ratio_symmetric : symmetric_ratio Cases.exact_ratio.
Proof. intros a b. unfold Cases.exact_ratio. now rewrite String.eqb_sym. Qed.

Lemma exact_ratio_bounded : bounded_ratio Cases.exact_ratio.
Proof. intros a b. unfold Cases.exact_ratio. destruct (String.eqb a b); lia. Qed.

Lemma score_pair_symmetric_witness :
  score_pair Cases.exact_ratio Cases.name_and_address
    (make_row Cases.with_gap Cases.name_and_address 0
       [PyStr "Acme"; PyStr "1 Main Street"])
    (make_row Cases.with_gap Cases.name_and_address 2
       [PyStr "Acme"; PyStr "1 Main Street"])
  = score_pair Cases.exact_ratio Cases.name_and_address
      (make_row Cases.with_gap Cases.name_and_address 2
         [PyStr "Acme"; PyStr "1 Main Street"])
      (make_row Cases.with_gap Cases.name_and_address 0
         [PyStr "Acme"; PyStr "1 Main Street"]).
Proof.
  apply score_pair_symmetric. exact exact_ratio_symmetric.
Defined.

Lemma field_score_missing (token_set_ratio : string -> string -> Z)
      (column : option string) (r1 r2 : WorkRow) :
  cell_missing column r1 \/ cell_missing column r2 ->
  field_score token_set_ratio column r1 r2 = 0.
Proof.
  unfold field_score.
  intros [[c [-> [T G]]]|[c [-> [T G]]]]; rewrite T, G.
  - now destruct (series_get (cells r2) c).
  - destruct (series_get (cells r1) c) as [a|]; [|reflexivity]. now destruct a.
Qed.

(** X4: a pair is rejected as soon as one of the two records has no value
    (None) in the name column or in the address column in use: the field
    scores 0, which is below the name floor, and limits the overall score to
    half of a name score of at most 100. *)
Theorem missing_value_rejects_pair
        (token_set_ratio : string -> string -> Z)
        (col_map : DeduplicationColumnMap) (r1 r2 : WorkRow) :
  bounded_ratio token_set_ratio ->
  (cell_missing (customer_name col_map) r1 \/
   cell_missing (customer_name col_map) r2) \/
  (cell_missing (address col_map) r1 \/ cell_missing (address col_map) r2) ->
  score_pair token_set_ratio col_map r1 r2 = None.
Proof.
  intros Hb H. unfold score_pair.
  destruct H as [Hn|Ha].
  - rewrite (field_score_missing _ _ _ _ Hn).
    assert (T : truthy_opt (customer_name col_map) = true).
    { destruct Hn as [[c [-> [T _]]]|[c [-> [T _]]]]; exact T. }
    now rewrite T.
  - rewrite (field_score_missing _ (address col_map) _ _ Ha).
    destruct (truthy_opt (customer_name col_map) && _); [reflexivity|].
    assert (T : truthy_opt (address col_map) = true).
    { destruct Ha as [[c [-> [T _]]]|[c [-> [T _]]]]; exact T. }
    pose proof (field_score_between token_set_ratio (customer_name col_map)
                  r1 r2 Hb) as Hn.
    assert (Hlt : overall_score col_map
                    (field_score token_set_ratio (customer_name col_map) r1 r2) 0
                  < 70).
    { unfold overall_score. rewrite T.
      destruct (truthy_opt (customer_name col_map)); simpl.
      - set (n := field_score token_set_ratio (customer_name col_map) r1 r2)
          in *.
        assert (py_round (py_truediv (py_sum [n; 0]) (py_len [n; 0])) <= 50);
          [|lia].
        apply (py_round_between 0 50); [reflexivity|].
        rewrite !py_sum_cons. unfold py_sum, py_len. simpl. lia.
      - vm_compute. reflexivity. }
    apply Z.ltb_lt in Hlt. now rewrite Hlt.
Qed.

Lemma missing_value_rejects_pair_witness :
  score_pair Cases.exact_ratio Cases.name_and_address
    (make_row Cases.with_gap Cases.name_and_address 0
       [PyStr "Acme"; PyStr "1 Main Street"])
    (make_row Cases.with_gap Cases.name_and_address 1
       [PyNone; PyStr "1 Main Street"])
  = None.
Proof.
  apply missing_value_rejects_pair; [exact exact_ratio_bounded|].
  left. right. exists "Name"%string. repeat split.
Defined.

(** ** Scores in the output *)

Lemma exact_run :
  build_duplicate_df Cases.exact_ratio Sample.sample_argsort Sample.uuids_a
                     Sample.customers Sample.name_address_city
    = Ok (Cases.exact_groups, Cases.exact_stats).
Proof. vm_compute. reflexivity. Qed.

(** X5: with a similarity measure bounded by 0 and 100, every duplicate of
    every returned group has an overall score between 70 and 100, a name
    score, when it has one, between 70 and 100, an address score, when it has
    one, between 0 and 100, and the group's average lies between 70 and
    100. *)
Theorem scores_within_bounds
        (token_set_ratio : string -> string -> Z)
        (argsort_desc : list Z -> list nat) (uuids : uuid_source)
        (df : DataFrame) (col_map : DeduplicationColumnMap)
        (groups : list MasterRecord) (stats : BlockStats)
        (g : MasterRecord) (d : DuplicateRecordDetail) :
  bounded_ratio token_set_ratio ->
  build_duplicate_df token_set_ratio argsort_desc uuids df col_map
    = Ok (groups, stats) ->
  In g groups -> In d (Duplicates g) ->
  70 <= Overall_score d <= 100 /\
  (forall n, Name_score d = Some n -> 70 <= n <= 100) /\
  (forall a, Addr_score d = Some a -> 0 <= a <= 100) /\
  70 <= AvgSimilarity g <= 100.
Proof.
  intros Hb Hrun Hg Hd.
  assert (Hdup : forall d', In d' (Duplicates g) ->
            70 <= Overall_score d' <= 100 /\
            (forall n, Name_score d' = Some n -> 70 <= n <= 100) /\
            (forall a, Addr_score d' = Some a -> 0 <= a <= 100)).
  { intros d' Hd'.
    destruct (duplicates_provenance _ _ _ _ _ _ _ _ _ Hrun Hg Hd')
      as [r1 [r2 [sc [u [_ [_ [_ [Hs [-> _]]]]]]]]].
    destruct (score_pair_Some _ _ _ _ _ Hs) as [En [Ea [Eo [Hn Ho]]]].
    pose proof (field_score_between token_set_ratio (customer_name col_map)
                  r1 r2 Hb) as Bn.
    pose proof (field_score_between token_set_ratio (address col_map)
                  r1 r2 Hb) as Ba.
    rewrite <- En in Bn. rewrite <- Ea in Ba.
    pose proof (overall_score_between col_map _ _ Bn Ba) as Bo.
    rewrite <- Eo in Bo. simpl. split; [lia|]. split.
    - intros n. destruct (truthy_opt (customer_name col_map)); [|discriminate].
      intros E. inversion E; subst. specialize (Hn eq_refl). lia.
    - intros a. destruct (truthy_opt (address col_map)); [|discriminate].
      intros E. inversion E; subst. lia. }
  destruct (Hdup d Hd) as [H1 [H2 H3]].
  split; [exact H1|]. split; [exact H2|]. split; [exact H3|].
  destruct (groups_from_entries _ _ _ _ _ _ _ _ Hrun Hg) as [e [-> [Hne _]]].
  unfold finalize in *. cbn [AvgSimilarity Duplicates] in *.
  destruct (entry_Duplicates e) as [|d0 l] eqn:E; [contradiction|].
  apply (round_mean_between 70 100 (map Overall_score (d0 :: l)));
    [discriminate|].
  apply Forall_forall. intros x Hx. apply in_map_iff in Hx.
  destruct Hx as [d' [<- Hd']]. now destruct (Hdup d' Hd').
Qed.

Lemma scores_within_bounds_witness :
  exists g d,
    In g Cases.exact_groups /\ In d (Duplicates g) /\
    Overall_score d = 100 /\
    70 <= Overall_score d <= 100 /\
    (forall n, Name_score d = Some n -> 70 <= n <= 100) /\
    (forall a, Addr_score d = Some a -> 0 <= a <= 100) /\
    70 <= AvgSimilarity g <= 100.
Proof.
  eexists. eexists.
  split; [left; reflexivity|]. split; [left; reflexivity|].
  split; [reflexivity|].
  eapply (scores_within_bounds
            Cases.exact_ratio Sample.sample_argsort Sample.uuids_a
            Sample.customers Sample.name_address_city
            Cases.exact_groups Cases.exact_stats).
  - exact exact_ratio_bounded.
  - vm_compute. reflexivity.
  - left; reflexivity.
  - left; reflexivity.
Defined.

(** A group without a low-confidence duplicate averages at least 90. *)
Lemma confident_group_average
        (token_set_ratio : string -> string -> Z)
        (argsort_desc : list Z -> list nat) (uuids : uuid_source)
        (df : DataFrame) (col_map : DeduplicationColumnMap)
        (groups : list MasterRecord) (stats : BlockStats) (g : MasterRecord) :
  build_duplicate_df token_set_ratio argsort_desc uuids df col_map
    = Ok (groups, stats) ->
  In g groups ->
  IsLowConfidenceGroup g = false ->
  90 <= AvgSimilarity g.
Proof.
  intros Hrun Hg Hlow.
  destruct (groups_from_entries _ _ _ _ _ _ _ _ Hrun Hg) as [e [Eg [Hne _]]].
  assert (Hall : Forall (fun x => 90 <= x) (map Overall_score (Duplicates g))).
  { apply Forall_forall. intros x Hx. apply in_map_iff in Hx.
    destruct Hx as [d [<- Hd]].
    destruct (duplicates_provenance _ _ _ _ _ _ _ _ _ Hrun Hg Hd)
      as [r1 [r2 [sc [u [_ [_ [_ [_ [E _]]]]]]]]].
    destruct (Z.ltb_spec (Overall_score d) 90) as [Hlt|]; [|assumption].
    exfalso. subst g. cbn [finalize IsLowConfidenceGroup Duplicates] in *.
    assert (Hex : existsb IsLowConfidence (entry_Duplicates e) = true).
    { apply existsb_exists. exists d. split; [exact Hd|].
      subst d. cbn [IsLowConfidence Overall_score] in *. now apply Z.ltb_lt. }
    congruence. }
  subst g. unfold finalize in *. cbn [AvgSimilarity Duplicates] in *.
  destruct (entry_Duplicates e) as [|d0 l] eqn:E; [contradiction|].
  apply (round_mean_lower 90 (map Overall_score (d0 :: l)));
    [discriminate | exact Hall].
Qed.

(** X6: a returned group that is not flagged low-confidence has an average
    similarity of at least 90, and each of its duplicates has an overall
    score of at least 90 and is not flagged; so a group whose average is
    below 90 is always flagged. *)
Theorem confident_group_average_at_least_90
        (token_set_ratio : string -> string -> Z)
        (argsort_desc : list Z -> list nat) (uuids : uuid_source)
        (df : DataFrame) (col_map : DeduplicationColumnMap)
        (groups : list MasterRecord) (stats : BlockStats) (g : MasterRecord) :
  build_duplicate_df token_set_ratio argsort_desc uuids df col_map
    = Ok (groups, stats) ->
  In g groups ->
  IsLowConfidenceGroup g = false ->
  90 <= AvgSimilarity g /\
  forall d, In d (Duplicates g) ->
            IsLowConfidence d = false /\ 90 <= Overall_score d.
Proof.
  intros Hrun Hg Hlow.
  split; [exact (confident_group_average _ _ _ _ _ _ _ _ Hrun Hg Hlow)|].
  intros d Hd.
  assert (Hflag : IsLowConfidence d = false).
  { destruct (groups_from_entries _ _ _ _ _ _ _ _ Hrun Hg) as [e [Eg _]].
    subst g. cbn [finalize IsLowConfidenceGroup Duplicates] in *.
    destruct (IsLowConfidence d) eqn:F; [|reflexivity].
    assert (existsb IsLowConfidence (entry_Duplicates e) = true)
      by (apply existsb_exists; now exists d).
    congruence. }
  split; [exact Hflag|].
  destruct (duplicates_provenance _ _ _ _ _ _ _ _ _ Hrun Hg Hd)
    as [r1 [r2 [sc [u [_ [_ [_ [_ [E _]]]]]]]]].
  subst d. cbn [dup_detail IsLowConfidence Overall_score] in *.
  now apply Z.ltb_ge.
Qed.

Lemma confident_group_average_at_least_90_witness :
  exists g,
    In g Sample.customers_groups /\ AvgSimilarity g = 100 /\
    90 <= AvgSimilarity g /\
    forall d, In d (Duplicates g) ->
              IsLowConfidence d = false /\ 90 <= Overall_score d.
Proof.
  eexists. split; [left; reflexivity|]. split; [reflexivity|].
  eapply (confident_group_average_at_least_90
            Sample.sample_ratio Sample.sample_argsort Sample.uuids_a
            Sample.customers Sample.name_address_city
            Sample.customers_groups Sample.customers_stats).
  - vm_compute. reflexivity.
  - left; reflexivity.
  - reflexivity.
Defined.

Lemma city_only_run :
  Sample.sample_engine Sample.uuids_a Sample.customers Cases.city_only
    = Ok (Cases.city_only_groups, Cases.city_only_stats).
Proof. vm_compute. reflexivity. Qed.

(** X7: when neither a name column nor an address column is in use, the
    overall score of every pair is 0, so the engine returns no group at
    all, whatever other fields are mapped. *)
Theorem no_scoring_field_no_groups
        (token_set_ratio : string -> string -> Z)
        (argsort_desc : list Z -> list nat) (uuids : uuid_source)
        (df : DataFrame) (col_map : DeduplicationColumnMap)
        (groups : list MasterRecord) (stats : BlockStats) :
  truthy_opt (customer_name col_map) = false ->
  truthy_opt (address col_map) = false ->
  build_duplicate_df token_set_ratio argsort_desc uuids df col_map
    = Ok (groups, stats) ->
  groups = [].
Proof.
  intros Tn Ta Hrun. destruct groups as [|g groups]; [reflexivity|]. exfalso.
  destruct (groups_from_entries _ _ _ _ _ _ _ _ Hrun (or_introl eq_refl))
    as [e [_ [Hne Hall]]].
  destruct (entry_Duplicates e) as [|d l]; [contradiction|].
  inversion Hall as [|? ? Hd _]; subst.
  destruct Hd as [i1 [i2 [r1 [r2 [sc [u [_ [_ [_ [Hs _]]]]]]]]]].
  destruct (score_pair_Some _ _ _ _ _ Hs) as [_ [_ [Eo [_ Ho]]]].
  unfold overall_score in Eo. rewrite Tn, Ta in Eo. simpl in Eo. lia.
Qed.

Lemma no_scoring_field_no_groups_witness :
  Cases.city_only_groups = [].
Proof.
  apply (no_scoring_field_no_groups
           Sample.sample_ratio Sample.sample_argsort Sample.uuids_a
           Sample.customers Cases.city_only
           Cases.city_only_groups Cases.city_only_stats).
  - reflexivity.
  - reflexivity.
  - vm_compute. reflexivity.
Defined.

Lemma name_only_run :
  Sample.sample_engine Sample.uuids_a Sample.customers Sample.name_only
    = Ok (Cases.name_only_groups, Cases.name_only_stats).
Proof. vm_compute. reflexivity. Qed.

(** X8: when a name column is in use and no address column is, every
    duplicate record has an overall score equal to its name score and no
    address score. *)
Theorem name_only_overall_is_name_score
        (token_set_ratio : string -> string -> Z)
        (argsort_desc : list Z -> list nat) (uuids : uuid_source)
        (df : DataFrame) (col_map : DeduplicationColumnMap)
        (groups : list MasterRecord) (stats : BlockStats)
        (g : MasterRecord) (d : DuplicateRecordDetail) :
  truthy_opt (customer_name col_map) = true ->
  truthy_opt (address col_map) = false ->
  build_duplicate_df token_set_ratio argsort_desc uuids df col_map
    = Ok (groups, stats) ->
  In g groups -> In d (Duplicates g) ->
  Name_score d = Some (Overall_score d) /\ Addr_score d = None.
Proof.
  intros Tn Ta Hrun Hg Hd.
  destruct (duplicates_provenance _ _ _ _ _ _ _ _ _ Hrun Hg Hd)
    as [r1 [r2 [sc [u [_ [_ [_ [Hs [-> _]]]]]]]]].
  destruct (score_pair_Some _ _ _ _ _ Hs) as [_ [_ [Eo _]]].
  cbn [dup_detail Name_score Addr_score Overall_score]. rewrite Tn, Ta.
  split; [|reflexivity]. f_equal.
  unfold overall_score in Eo. rewrite Tn, Ta in Eo. cbn [app] in Eo.
  rewrite Eo. change (py_sum [name_s sc]) with (0 + name_s sc).
  change (py_len [name_s sc]) with 1. rewrite Z.add_0_l.
  symmetry. apply py_round_whole.
Qed.

Lemma name_only_overall_is_name_score_witness :
  exists g d,
    In g Cases.name_only_groups /\ In d (Duplicates g) /\
    Overall_score d = 89 /\
    Name_score d = Some (Overall_score d) /\ Addr_score d = None.
Proof.
  eexists. eexists.
  split; [right; left; reflexivity|]. split; [right; left; reflexivity|].
  split; [reflexivity|].
  eapply (name_only_overall_is_name_score
            Sample.sample_ratio Sample.sample_argsort Sample.uuids_a
            Sample.customers Sample.name_only
            Cases.name_only_groups Cases.name_only_stats).
  - reflexivity.
  - reflexivity.
  - vm_compute. reflexivity.
  - right; left; reflexivity.
  - right; left; reflexivity.
Defined.

(** ** Block statistics *)

Lemma make_rows_length (df : DataFrame) (col_map : DeduplicationColumnMap)
      (i : nat) (rows : list (list pyval)) :
  List.length (make_rows df col_map i rows) = List.length rows.
Proof.
  revert i. induction rows as [|row rows IH]; intros i; simpl;
    [reflexivity | now rewrite IH].
Qed.

Lemma block_sizes_setdefault_append (key : string) (i : Z)
      (b : list (string * list Z)) :
  py_sum (block_sizes (setdefault_append key i b)) = py_sum (block_sizes b) + 1.
Proof.
  unfold block_sizes. induction b as [|[k l] b IH]; simpl.
  - reflexivity.
  - destruct (String.eqb k key); simpl; rewrite !py_sum_cons.
    + unfold py_len. rewrite length_app. simpl. lia.
    + rewrite IH. lia.
Qed.

Lemma block_sizes_sum (col_map : DeduplicationColumnMap) (work : list WorkRow) :
  py_sum (block_sizes (build_blocks col_map work)) = py_len work.
Proof.
  induction work as [|r p IH] using rev_ind; [reflexivity|].
  rewrite build_blocks_snoc, block_sizes_setdefault_append, IH.
  unfold py_len. rewrite length_app. simpl. lia.
Qed.

Lemma setdefault_append_nonempty (key : string) (i : Z)
      (b : list (string * list Z)) :
  Forall (fun kv => snd kv <> []) b ->
  Forall (fun kv => snd kv <> []) (setdefault_append key i b).
Proof.
  induction 1 as [|[k l] b Hk Hb IH]; simpl.
  - constructor; [discriminate | constructor].
  - destruct (String.eqb k key); constructor; auto.
    simpl. now destruct l.
Qed.

Lemma blocks_nonempty (col_map : DeduplicationColumnMap) (work : list WorkRow) :
  Forall (fun kv => snd kv <> []) (build_blocks col_map work).
Proof.
  induction work as [|r p IH] using rev_ind; [constructor|].
  rewrite build_blocks_snoc. now apply setdefault_append_nonempty.
Qed.

Lemma fold_max_ge (l : list Z) (a : Z) : a <= fold_left Z.max l a.
Proof.
  revert a. induction l as [|x l IH]; intros a; simpl; [lia|].
  specialize (IH (Z.max a x)). lia.
Qed.

Lemma py_max_from (l : list Z) (a : Z) :
  0 <= a -> fold_left Z.max l a = Z.max a (py_max l).
Proof.
  unfold py_max. revert a. induction l as [|x l IH]; intros a Ha.
  - simpl. lia.
  - cbn [fold_left]. rewrite (IH (Z.max a x)), (IH (Z.max 0 x)) by lia.
    pose proof (fold_max_ge l 0). lia.
Qed.

Lemma py_max_cons (x : Z) (l : list Z) :
  py_max (x :: l) = Z.max (Z.max 0 x) (py_max l).
Proof. unfold py_max at 1. cbn [fold_left]. apply py_max_from. lia. Qed.

(** The largest of sizes that are all at least 1 lies between 1 and their
    sum, and the sum is at most the largest times their number. *)
Lemma py_max_bounds (l : list Z) :
  l <> [] -> Forall (fun x => 1 <= x) l ->
  1 <= py_max l <= py_sum l /\ py_len l <= py_sum l /\
  py_sum l <= py_max l * py_len l.
Proof.
  intros Hne Hl. induction Hl as [|x l Hx Hl IH]; [contradiction|].
  rewrite py_max_cons, py_sum_cons, py_len_cons.
  destruct l as [|y l].
  - unfold py_max, py_sum, py_len. simpl. lia.
  - destruct (IH ltac:(discriminate)) as [H1 [H2 H3]].
    assert (0 < py_len (y :: l)) by (rewrite py_len_cons; unfold py_len; lia).
    nia.
Qed.

(** X9: the block statistics account for every row: the sizes of the blocks
    add up to the number of rows of the table; with at least one row there
    is at least one block, no more blocks than rows, the largest block holds
    between 1 row and all of them and at least the average, and the average
    is the number of rows divided by the number of blocks. *)
Theorem block_stats_account_for_rows
        (token_set_ratio : string -> string -> Z)
        (argsort_desc : list Z -> list nat) (uuids : uuid_source)
        (df : DataFrame) (col_map : DeduplicationColumnMap)
        (groups : list MasterRecord) (stats : BlockStats) :
  build_duplicate_df token_set_ratio argsort_desc uuids df col_map
    = Ok (groups, stats) ->
  records_in_blocks stats = py_len (df_rows df) /\
  (df_rows df <> [] ->
   1 <= total_blocks stats <= py_len (df_rows df) /\
   1 <= max_block_size stats <= py_len (df_rows df) /\
   py_len (df_rows df) <= max_block_size stats * total_blocks stats /\
   avg_block_size stats
     = py_truediv (py_len (df_rows df)) (total_blocks stats)).
Proof.
  intros Hrun. apply build_duplicate_df_Ok in Hrun.
  destruct Hrun as [st [_ [-> _]]].
  set (blocks := build_blocks col_map (make_work df col_map)).
  assert (Hsum : py_sum (block_sizes blocks) = py_len (df_rows df)).
  { unfold blocks. rewrite block_sizes_sum. unfold py_len, make_work.
    now rewrite make_rows_length. }
  unfold make_block_stats. cbn [records_in_blocks total_blocks max_block_size
                                avg_block_size].
  split; [exact Hsum|]. intros Hrows.
  destruct blocks as [|b0 bs] eqn:Eb.
  - exfalso. destruct (df_rows df); [contradiction|].
    unfold block_sizes, py_sum, py_len in Hsum. simpl in Hsum. lia.
  - assert (Hsizes : Forall (fun x => 1 <= x) (block_sizes (b0 :: bs))).
    { pose proof (blocks_nonempty col_map (make_work df col_map)) as Hne.
      fold blocks in Hne. rewrite Eb in Hne. unfold block_sizes.
      apply Forall_forall. intros x Hx. apply in_map_iff in Hx.
      destruct Hx as [kv [<- Hkv]]. rewrite Forall_forall in Hne.
      specialize (Hne kv Hkv). destruct (snd kv); [contradiction|].
      rewrite py_len_cons. unfold py_len. lia. }
    destruct (py_max_bounds (block_sizes (b0 :: bs)) ltac:(discriminate) Hsizes)
      as [H1 [H2 H3]].
    assert (Hlen : py_len (block_sizes (b0 :: bs)) = py_len (b0 :: bs)).
    { unfold py_len, block_sizes. now rewrite length_map. }
    rewrite Hlen in *. rewrite Hsum in *.
    assert (0 < py_len (b0 :: bs)) by (rewrite py_len_cons; unfold py_len; lia).
    repeat split; try lia.
Qed.

Lemma block_stats_account_for_rows_witness :
  records_in_blocks Sample.customers_stats = py_len (df_rows Sample.customers) /\
  (df_rows Sample.customers <> [] ->
   1 <= total_blocks Sample.customers_stats <= py_len (df_rows Sample.customers) /\
   1 <= max_block_size Sample.customers_stats
     <= py_len (df_rows Sample.customers) /\
   py_len (df_rows Sample.customers)
     <= max_block_size Sample.customers_stats
        * total_blocks Sample.customers_stats /\
   avg_block_size Sample.customers_stats
     = py_truediv (py_len (df_rows Sample.customers))
                  (total_blocks Sample.customers_stats)).
Proof.
  apply (block_stats_account_for_rows
           Sample.sample_ratio Sample.sample_argsort Sample.uuids_a
           Sample.customers Sample.name_address_city
           Sample.customers_groups Sample.customers_stats).
  vm_compute. reflexivity.
Defined.

(** ** The pairs the loop compares *)








(** ** One group per anchor *)

Lemma append_duplicate_keys (key : Z) (dup : DuplicateRecordDetail)
      (d : list (Z * MasterEntry)) :
  map fst (append_duplicate key dup d) = map fst d.
Proof.
  induction d as [|[k e] d IH]; simpl; [reflexivity|].
  destruct (k =? key); simpl; [reflexivity | now rewrite IH].
Qed.

Lemma dict_mem_In (key : Z) (d : list (Z * MasterEntry)) :
  dict_mem key d = true <-> In key (map fst d).
Proof.
  induction d as [|[k e] d IH]; simpl; [split; [discriminate | intros []]|].
  rewrite orb_true_iff, IH, Z.eqb_eq. tauto.
Qed.

Lemma compare_pair_keeps_keys_distinct
      (token_set_ratio : string -> string -> Z) (uuids : uuid_source)
      (col_map : DeduplicationColumnMap) (work : list WorkRow)
      (st st' : LoopState) (pair : Z * Z) :
  NoDup (map fst (master_records_dict st)) ->
  compare_pair token_set_ratio uuids col_map work st pair = Ok st' ->
  NoDup (map fst (master_records_dict st')).
Proof.
  intros Hnd. unfold compare_pair.
  destruct (loc work (fst pair)) as [r1|]; simpl; [|discriminate].
  destruct (loc work (snd pair)) as [r2|]; simpl; [|discriminate].
  destruct (score_pair token_set_ratio col_map r1 r2) as [sc|];
    [|intros E; now inversion E; subst].
  destruct (dict_mem (ExcelRow r1 + 2) (master_records_dict st)) eqn:M;
    intros E; inversion E; subst; simpl; rewrite append_duplicate_keys.
  - exact Hnd.
  - rewrite map_app. simpl. apply NoDup_app; [exact Hnd | | ].
    + constructor; [intros [] | constructor].
    + intros k Hk [<-|[]]. apply dict_mem_In in Hk. congruence.
Qed.

(** X11: when the sort does what pandas documents, no two returned groups
    have the same anchor row: the duplicates found for one anchor are all in
    one group. *)
Theorem one_group_per_anchor
        (token_set_ratio : string -> string -> Z)
        (argsort_desc : list Z -> list nat) (uuids : uuid_source)
        (df : DataFrame) (col_map : DeduplicationColumnMap)
        (groups : list MasterRecord) (stats : BlockStats) :
  argsort_contract argsort_desc ->
  build_duplicate_df token_set_ratio argsort_desc uuids df col_map
    = Ok (groups, stats) ->
  NoDup (map MasterRow groups).
Proof.
  intros Hc Hrun.
  destruct (groups_permutation _ _ _ _ _ _ _ Hc Hrun) as [st [Hloop Hperm]].
  apply (Permutation_NoDup (Permutation_sym (Permutation_map MasterRow Hperm))).
  assert (Hnd : NoDup (map fst (master_records_dict st))).
  { apply (for_each_invariant _
             (fun s => NoDup (map fst (master_records_dict s)))
             (fun _ => True)) with (4 := Hloop).
    - intros s x s' _ Hs Hb. eapply compare_pair_keeps_keys_distinct; eauto.
    - apply Forall_forall. auto.
    - constructor. }
  assert (Hrows : Forall (fun kv => entry_MasterRow (snd kv) = fst kv)
                         (master_records_dict st)).
  { assert (Hok : dict_ok token_set_ratio col_map (make_work df col_map)
                    (compared_pairs (build_blocks col_map (make_work df col_map)))
                    st).
    { apply (for_each_invariant _
               (dict_ok token_set_ratio col_map (make_work df col_map)
                  (compared_pairs (build_blocks col_map (make_work df col_map))))
               (fun p => In p (compared_pairs
                                 (build_blocks col_map (make_work df col_map)))))
        with (4 := Hloop).
      - intros s x s' Hx Hs Hb. eapply compare_pair_keeps_dict_ok; eauto.
      - apply Forall_forall. auto.
      - constructor. }
    eapply Forall_impl; [|exact Hok]. intros kv H. apply H. }
  rewrite map_map.
  replace (map (fun kv => MasterRow (finalize (snd kv))) (master_records_dict st))
    with (map fst (master_records_dict st)); [exact Hnd|].
  clear -Hrows. induction Hrows as [|kv l Hkv Hl IH]; simpl; [reflexivity|].
  now rewrite IH, Hkv.
Qed.

Lemma one_group_per_anchor_witness :
  NoDup (map MasterRow Sample.customers_groups).
Proof.
  apply (one_group_per_anchor
           Sample.sample_ratio Sample.sample_argsort Sample.uuids_a
           Sample.customers Sample.name_address_city
           Sample.customers_groups Sample.customers_stats).
  - exact sample_argsort_contract.
  - vm_compute. reflexivity.
Defined.

(** ** Every accepted pair is reported *)





Section Reported.

Variable token_set_ratio : string -> string -> Z.
Variable uuids : uuid_source.
Variable col_map : DeduplicationColumnMap.
Variable work : list WorkRow.




End Reported.



(** ** Duplicates of a group come in row order *)

Lemma for_each_invariant_rest {S A : Type} (body : S -> A -> result S)
      (I : list A -> S -> Prop) :
  (forall x rest s s', I (x :: rest) s -> body s x = Ok s' -> I rest s') ->
  forall l s s', I l s -> for_each body l s = Ok s' -> I [] s'.
Proof.
  intros Hstep l. induction l as [|x l IH]; intros s s' HI Hrun; simpl in Hrun.
  - now inversion Hrun; subst.
  - destruct (body s x) as [s1|e] eqn:E; simpl in Hrun; [|discriminate].
    apply (IH s1 s'); [exact (Hstep x l s s1 HI E) | exact Hrun].
Qed.






Section RowOrder.

Variable token_set_ratio : string -> string -> Z.
Variable uuids : uuid_source.
Variable col_map : DeduplicationColumnMap.
Variable work : list WorkRow.
Hypothesis work_indexed : indexed work.


End RowOrder.



(** ** Row numbers and displayed texts *)











(** ** Identifiers *)

Lemma dict_ids_append_duplicate (key : Z) (dup : DuplicateRecordDetail)
      (d : list (Z * MasterEntry)) :
  dict_mem key d = true ->
  Permutation (dict_ids (append_duplicate key dup d)) (uid dup :: dict_ids d).
Proof.
  unfold dict_ids. induction d as [|[k0 e0] d IH]; simpl; [discriminate|].
  destruct (Z.eqb_spec k0 key) as [->|Hne]; simpl.
  - intros _. rewrite map_app. simpl.
    rewrite <- app_assoc. simpl.
    apply Permutation_sym.
    eapply perm_trans; [apply perm_swap|]. constructor.
    apply Permutation_middle.
  - intros Hm. apply Permutation_sym.
    eapply perm_trans; [apply perm_swap|]. constructor.
    eapply perm_trans; [apply Permutation_middle|].
    apply Permutation_app_head. apply Permutation_sym. exact (IH Hm).
Qed.

Lemma dict_ids_snoc (d : list (Z * MasterEntry)) (kv : Z * MasterEntry) :
  dict_ids (d ++ [kv])
  = (dict_ids d
     ++ entry_master_uid (snd kv) :: map uid (entry_Duplicates (snd kv)))%list.
Proof. unfold dict_ids. rewrite flat_map_app. simpl. now rewrite app_nil_r. Qed.

Lemma dict_mem_snoc (key : Z) (d : list (Z * MasterEntry)) (e : MasterEntry) :
  dict_mem key (d ++ [(key, e)]) = true.
Proof.
  induction d as [|[k0 e0] d IH]; simpl.
  - now rewrite Z.eqb_refl.
  - rewrite IH. apply orb_true_r.
Qed.

Lemma compare_pair_draws_ids
      (token_set_ratio : string -> string -> Z) (uuids : uuid_source)
      (col_map : DeduplicationColumnMap) (work : list WorkRow)
      (st st' : LoopState) (pair : Z * Z) :
  Permutation (dict_ids (master_records_dict st))
              (map uuids (seq 0 (uuids_drawn st))) ->
  compare_pair token_set_ratio uuids col_map work st pair = Ok st' ->
  Permutation (dict_ids (master_records_dict st'))
              (map uuids (seq 0 (uuids_drawn st'))).
Proof.
  intros Hst. unfold compare_pair.
  destruct (loc work (fst pair)) as [r1|]; simpl; [|discriminate].
  destruct (loc work (snd pair)) as [r2|]; simpl; [|discriminate].
  destruct (score_pair token_set_ratio col_map r1 r2) as [sc|];
    [|intros E; now inversion E; subst].
  destruct (dict_mem (ExcelRow r1 + 2) (master_records_dict st)) eqn:M;
    intros E; inversion E; subst; cbn [master_records_dict uuids_drawn].
  - rewrite (dict_ids_append_duplicate _ _ _ M). cbn [dup_detail uid].
    rewrite Hst, seq_S, map_app. simpl.
    apply Permutation_cons_append.
  - rewrite (dict_ids_append_duplicate _ _ _ (dict_mem_snoc _ _ _)).
    cbn [dup_detail uid]. rewrite dict_ids_snoc. cbn [snd new_master
      entry_master_uid entry_Duplicates map].
    rewrite Hst, !seq_S, !map_app. simpl.
    rewrite <- app_assoc. simpl.
    rewrite (Permutation_cons_append
               (map uuids (seq 0 (uuids_drawn st)) ++ [uuids (S (uuids_drawn st))])
               (uuids (uuids_drawn st))).
    rewrite <- app_assoc. simpl.
    apply Permutation_app_head. apply perm_swap.
Qed.

Lemma output_ids_finalized (d : list (Z * MasterEntry)) :
  output_ids (map (fun kv => finalize (snd kv)) d) = dict_ids d.
Proof.
  unfold output_ids, dict_ids. induction d as [|kv d IH]; simpl;
    [reflexivity | now rewrite IH].
Qed.

Lemma tally_injective (m n : nat) : Cases.tally m = Cases.tally n -> m = n.
Proof.
  revert n. induction m as [|m IH]; intros [|n] E; simpl in E;
    try discriminate; [reflexivity|].
  inversion E. f_equal. now apply IH.
Qed.

(** X15: the identifiers of the output, the [master_uid] of every group and
    the [uid] of every duplicate record, are exactly the identifiers the
    invocation drew, each used once; so with a source that never repeats an
    identifier, as uuid4 is meant to be, no two of them are equal. This is
    for a sort that does what pandas documents. *)
Theorem identifiers_are_distinct_draws
        (token_set_ratio : string -> string -> Z)
        (argsort_desc : list Z -> list nat) (uuids : uuid_source)
        (df : DataFrame) (col_map : DeduplicationColumnMap)
        (groups : list MasterRecord) (stats : BlockStats) :
  argsort_contract argsort_desc ->
  (forall m n, uuids m = uuids n -> m = n) ->
  build_duplicate_df token_set_ratio argsort_desc uuids df col_map
    = Ok (groups, stats) ->
  (exists n, Permutation (output_ids groups) (map uuids (seq 0 n))) /\
  NoDup (output_ids groups).
Proof.
  intros Hc Hinj Hrun.
  destruct (groups_permutation _ _ _ _ _ _ _ Hc Hrun) as [st [Hloop Hperm]].
  assert (Hids : Permutation (dict_ids (master_records_dict st))
                             (map uuids (seq 0 (uuids_drawn st)))).
  { apply (for_each_invariant _
             (fun s => Permutation (dict_ids (master_records_dict s))
                                   (map uuids (seq 0 (uuids_drawn s))))
             (fun _ => True)) with (4 := Hloop).
    - intros s x s' _ Hs Hb. eapply compare_pair_draws_ids; eauto.
    - apply Forall_forall. auto.
    - reflexivity. }
  assert (Hout : Permutation (output_ids groups)
                             (map uuids (seq 0 (uuids_drawn st)))).
  { unfold output_ids at 1. rewrite (Permutation_flat_map _ Hperm).
    fold (output_ids (map (fun kv => finalize (snd kv)) (master_records_dict st))).
    now rewrite output_ids_finalized. }
  split; [now exists (uuids_drawn st)|].
  apply (Permutation_NoDup (Permutation_sym Hout)).
  apply NoDup_map_NoDup_ForallPairs; [|apply seq_NoDup].
  intros m n _ _. apply Hinj.
Qed.

Lemma identifiers_are_distinct_draws_witness :
  (exists n, Permutation (output_ids Cases.tally_groups)
                         (map Cases.tally (seq 0 n))) /\
  NoDup (output_ids Cases.tally_groups).
Proof.
  apply (identifiers_are_distinct_draws
           Sample.sample_ratio Sample.sample_argsort Cases.tally
           Sample.customers Sample.name_address_city
           Cases.tally_groups Sample.customers_stats).
  - exact sample_argsort_contract.
  - exact tally_injective.
  - vm_compute. reflexivity.
Defined.

(** ** One duplicate record per accepted pair *)

Lemma py_sum_app (l1 l2 : list Z) : py_sum (l1 ++ l2) = py_sum l1 + py_sum l2.
Proof.
  induction l1 as [|x l1 IH]; simpl.
  - change (py_sum []) with 0. lia.
  - rewrite !py_sum_cons, IH. lia.
Qed.

Lemma py_sum_Permutation (l1 l2 : list Z) :
  Permutation l1 l2 -> py_sum l1 = py_sum l2.
Proof.
  induction 1 as [|x l l' H IH|x y l|l l' l'' H1 IH1 H2 IH2];
    rewrite ?py_sum_cons; lia.
Qed.

Lemma dict_duplicates_append (key : Z) (dup : DuplicateRecordDetail)
      (d : list (Z * MasterEntry)) :
  dict_mem key d = true ->
  dict_duplicates (append_duplicate key dup d) = dict_duplicates d + 1.
Proof.
  unfold dict_duplicates. induction d as [|[k0 e0] d IH]; simpl; [discriminate|].
  destruct (Z.eqb_spec k0 key) as [->|Hne]; simpl; rewrite !py_sum_cons.
  - intros _. simpl. unfold py_len. rewrite length_app. simpl. lia.
  - intros Hm. rewrite (IH Hm). simpl. lia.
Qed.

Lemma dict_duplicates_snoc (d : list (Z * MasterEntry)) (kv : Z * MasterEntry) :
  dict_duplicates (d ++ [kv])
  = dict_duplicates d + py_len (entry_Duplicates (snd kv)).
Proof.
  unfold dict_duplicates. rewrite map_app, py_sum_app. simpl.
  rewrite py_sum_cons. change (py_sum []) with 0. lia.
Qed.

Lemma compare_pair_counts
      (token_set_ratio : string -> string -> Z) (uuids : uuid_source)
      (col_map : DeduplicationColumnMap) (work : list WorkRow)
      (total : Z) (pair : Z * Z) (rest : list (Z * Z)) (st st' : LoopState) :
  dict_duplicates (master_records_dict st)
    + py_len (filter (accepted token_set_ratio col_map work) (pair :: rest))
    = total ->
  compare_pair token_set_ratio uuids col_map work st pair = Ok st' ->
  dict_duplicates (master_records_dict st')
    + py_len (filter (accepted token_set_ratio col_map work) rest)
    = total.
Proof.
  cbn [filter]. unfold accepted at 1, compare_pair.
  destruct (loc work (fst pair)) as [r1|]; simpl; [|discriminate].
  destruct (loc work (snd pair)) as [r2|]; simpl; [|discriminate].
  destruct (score_pair token_set_ratio col_map r1 r2) as [sc|]; simpl;
    [|intros H E; now inversion E; subst].
  rewrite py_len_cons. intros H.
  destruct (dict_mem (ExcelRow r1 + 2) (master_records_dict st)) eqn:M;
    intros E; inversion E; subst; cbn [master_records_dict].
  - rewrite (dict_duplicates_append _ _ _ M). lia.
  - rewrite (dict_duplicates_append _ _ _ (dict_mem_snoc _ _ _)),
            dict_duplicates_snoc.
    cbn [snd new_master entry_Duplicates].
    change (py_len (@nil DuplicateRecordDetail)) with 0. lia.
Qed.

Lemma DuplicateCount_finalized (d : list (Z * MasterEntry)) :
  py_sum (map DuplicateCount (map (fun kv => finalize (snd kv)) d))
  = dict_duplicates d.
Proof.
  unfold dict_duplicates. rewrite map_map. reflexivity.
Qed.

(** X16: when the sort does what pandas documents, the duplicate counts of
    the returned groups add up to the number of compared pairs that pass
    both thresholds: every accepted pair yields one duplicate record, in one
    group. *)
Theorem duplicate_counts_add_up_to_accepted_pairs
        (token_set_ratio : string -> string -> Z)
        (argsort_desc : list Z -> list nat) (uuids : uuid_source)
        (df : DataFrame) (col_map : DeduplicationColumnMap)
        (groups : list MasterRecord) (stats : BlockStats) :
  argsort_contract argsort_desc ->
  build_duplicate_df token_set_ratio argsort_desc uuids df col_map
    = Ok (groups, stats) ->
  py_sum (map DuplicateCount groups)
  = py_len (filter (accepted token_set_ratio col_map (make_work df col_map))
                   (compared_pairs
                      (build_blocks col_map (make_work df col_map)))).
Proof.
  intros Hc Hrun.
  destruct (groups_permutation _ _ _ _ _ _ _ Hc Hrun) as [st [Hloop Hperm]].
  rewrite (py_sum_Permutation _ _ (Permutation_map DuplicateCount Hperm)),
          DuplicateCount_finalized.
  set (work := make_work df col_map) in *.
  set (pairs := compared_pairs (build_blocks col_map work)) in *.
  set (total := py_len (filter (accepted token_set_ratio col_map work) pairs)).
  assert (Hfinal : dict_duplicates (master_records_dict st)
                   + py_len (filter (accepted token_set_ratio col_map work) [])
                   = total).
  { apply (for_each_invariant_rest
             (compare_pair token_set_ratio uuids col_map work)
             (fun rest s =>
                dict_duplicates (master_records_dict s)
                + py_len (filter (accepted token_set_ratio col_map work) rest)
                = total)) with (l := pairs)
                               (s := {| master_records_dict := [];
                                        uuids_drawn := 0 |}).
    - intros x rest s s'. apply compare_pair_counts.
    - reflexivity.
    - exact Hloop. }
  cbn [filter] in Hfinal. change (py_len (@nil (Z * Z))) with 0 in Hfinal. lia.
Qed.

Lemma duplicate_counts_add_up_to_accepted_pairs_witness :
  py_sum (map DuplicateCount Sample.customers_groups)
  = py_len (filter (accepted Sample.sample_ratio Sample.name_address_city
                             (make_work Sample.customers
                                        Sample.name_address_city))
                   (compared_pairs
                      (build_blocks Sample.name_address_city
                         (make_work Sample.customers
                                    Sample.name_address_city)))).
Proof.
  apply (duplicate_counts_add_up_to_accepted_pairs
           Sample.sample_ratio Sample.sample_argsort Sample.uuids_a
           Sample.customers Sample.name_address_city
           Sample.customers_groups Sample.customers_stats).
  - exact sample_argsort_contract.
  - vm_compute. reflexivity.
Defined.

(** ** The shape of normalized text *)

Section NormalizedShape.

Let chars := list_ascii_of_string.

Lemma alnum_not_space (c : ascii) : is_alnum c = true -> py_isspace c = false.
Proof.
  destruct c as [[] [] [] [] [] [] [] []]; vm_compute; congruence.
Qed.

Lemma alnum_lower (c : ascii) : is_alnum c = true -> lower_char c = c.
Proof.
  destruct c as [[] [] [] [] [] [] [] []]; vm_compute; congruence.
Qed.

Lemma chars_lower (s : string) : chars (py_lower s) = map lower_char (chars s).
Proof.
  induction s as [|c s IH]; [reflexivity|].
  unfold chars in *. simpl. now rewrite IH.
Qed.

Lemma chars_trim (s : string) : chars (trim s) = trim_chars (chars s).
Proof. unfold trim, chars. apply list_ascii_of_string_of_list_ascii. Qed.

Lemma chars_blank_out (s : string) :
  chars (blank_out s) = map (fun c => if keeps c then c else " "%char) (chars s).
Proof. unfold blank_out, chars. apply list_ascii_of_string_of_list_ascii. Qed.

Lemma chars_collapse_ws (s : string) : chars (collapse_ws s) = collapse (chars s).
Proof. unfold collapse_ws, chars. apply list_ascii_of_string_of_list_ascii. Qed.

(** The characters of a normalized text, step by step. *)
Lemma chars_normalize (v : pyval) :
  chars (normalize v) =
  trim_chars
    (collapse
       (map (fun c => if keeps c then c else " "%char)
            (trim_chars (map lower_char (chars (py_str v)))))).
Proof.
  unfold normalize.
  rewrite !strip_is_trim, sub_class_is_blank_out, sub_plus_is_collapse.
  now rewrite chars_trim, chars_collapse_ws, chars_blank_out, chars_trim,
              chars_lower.
Qed.

Lemma collapse_single_spaced (l : list ascii) :
  Forall (fun c => is_alnum c = true \/ py_isspace c = true) l ->
  single_spaced (collapse l).
Proof.
  induction 1 as [|c t Hc Ht IH]; [exact I|].
  rewrite collapse_cons. destruct (py_isspace c) eqn:Wc.
  - destruct t as [|c' t']; [simpl; auto|].
    destruct (py_isspace c') eqn:Wc'; [exact IH|].
    split; [|exact IH]. right. split; [reflexivity|].
    rewrite collapse_cons, Wc'.
    inversion Ht as [|? ? Hc' _]; subst. destruct Hc' as [A|W]; congruence.
  - split; [|exact IH]. left. destruct Hc as [A|W]; congruence.
Qed.

Lemma single_spaced_tail (l : list ascii) :
  single_spaced l -> single_spaced (drop_while py_isspace l).
Proof.
  induction l as [|c t IH]; simpl; [auto|].
  intros [Hc Ht]. destruct (py_isspace c); [now apply IH | now split].
Qed.

Lemma single_spaced_prefix (a b : list ascii) :
  single_spaced (a ++ b) -> single_spaced a.
Proof.
  induction a as [|c a IH]; simpl; [auto|].
  intros [Hc Ht]. split; [|now apply IH].
  destruct Hc as [A|[E Hn]]; [now left|]. right. split; [exact E|].
  now destruct a.
Qed.

Lemma drop_while_head (p : ascii -> bool) (l : list ascii) (c : ascii)
      (t : list ascii) :
  drop_while p l = c :: t -> p c = false.
Proof.
  induction l as [|x l IH]; simpl; [discriminate|].
  destruct (p x) eqn:Px; [exact IH|]. intros E. inversion E; subst. exact Px.
Qed.

Lemma drop_while_split (p : ascii -> bool) (l : list ascii) :
  exists pre, l = (pre ++ drop_while p l)%list.
Proof.
  induction l as [|x l [pre IH]]; simpl; [now exists []|].
  destruct (p x); [|now exists []].
  exists (x :: pre). simpl. now rewrite <- IH.
Qed.

Lemma rstrip_prefix (l : list ascii) :
  exists suf, l = (rev (drop_while py_isspace (rev l)) ++ suf)%list.
Proof.
  destruct (drop_while_split py_isspace (rev l)) as [pre E].
  exists (rev pre). rewrite <- rev_app_distr, <- E. now rewrite rev_involutive.
Qed.

Lemma single_spaced_trim (l : list ascii) :
  single_spaced l -> single_spaced (trim_chars l).
Proof.
  intros H. unfold trim_chars.
  destruct (rstrip_prefix (drop_while py_isspace l)) as [suf E].
  apply (single_spaced_prefix _ suf). rewrite <- E.
  now apply single_spaced_tail.
Qed.

Lemma trim_chars_ends (l : list ascii) :
  (forall c t, trim_chars l = c :: t -> py_isspace c = false) /\
  (forall c t, trim_chars l = (t ++ [c])%list -> py_isspace c = false).
Proof.
  unfold trim_chars. split.
  - intros c t E.
    destruct (rstrip_prefix (drop_while py_isspace l)) as [suf Es].
    rewrite E in Es. simpl in Es.
    now apply (drop_while_head py_isspace l c (t ++ suf)%list).
  - intros c t E.
    apply (f_equal (@rev ascii)) in E.
    rewrite rev_involutive, rev_app_distr in E. simpl in E.
    now apply (drop_while_head _ _ _ _ E).
Qed.

Lemma single_spaced_allowed (l : list ascii) :
  single_spaced l ->
  Forall (fun c => is_alnum c = true \/ c = " "%char) l.
Proof.
  induction l as [|c t IH]; simpl; [constructor|].
  intros [[A|[E _]] Ht]; constructor; auto.
Qed.

Lemma single_spaced_no_double (l l1 l2 : list ascii) :
  single_spaced l -> l <> (l1 ++ " "%char :: " "%char :: l2)%list.
Proof.
  revert l. induction l1 as [|x l1 IH]; intros l H E; subst l; simpl in H.
  - destruct H as [[A|[_ A]] _]; vm_compute in A; discriminate.
  - destruct H as [_ H]. now apply (IH _ H).
Qed.

End NormalizedShape.

(** The characters of a normalized text are single-spaced and neither start
    nor end with whitespace. *)
Lemma normalize_tidy (v : pyval) :
  let l := list_ascii_of_string (normalize v) in
  single_spaced l /\
  (forall c t, l = c :: t -> py_isspace c = false) /\
  (forall c t, l = (t ++ [c])%list -> py_isspace c = false).
Proof.
  intros l. subst l. rewrite chars_normalize.
  set (inner := map (fun c => if keeps c then c else " "%char)
                    (trim_chars (map lower_char
                                     (list_ascii_of_string (py_str v))))).
  split; [|apply trim_chars_ends].
  apply single_spaced_trim, collapse_single_spaced.
  unfold inner. apply Forall_forall. intros c Hc. apply in_map_iff in Hc.
  destruct Hc as [x [<- _]]. unfold keeps, is_alnum.
  destruct (in_range 97 122 x || in_range 48 57 x) eqn:A; simpl.
  - now left.
  - destruct (py_isspace x) eqn:W; [now right|]. right. reflexivity.
Qed.

(** X17: whatever the input, the text [normalize] returns consists of
    lower-case letters a-z, digits and spaces only, has no space at its
    start or at its end, and has no two spaces in a row. *)
Theorem normalize_output_shape (v : pyval) :
  let l := list_ascii_of_string (normalize v) in
  Forall (fun c => is_alnum c = true \/ c = " "%char) l /\
  (forall t, l <> " "%char :: t) /\
  (forall t, l <> (t ++ [" "%char])%list) /\
  (forall l1 l2, l <> (l1 ++ " "%char :: " "%char :: l2)%list).
Proof.
  intros l. destruct (normalize_tidy v) as [Hs [Hhead Hlast]].
  fold l in Hs, Hhead, Hlast.
  split; [now apply single_spaced_allowed|]. split; [|split].
  - intros t E. specialize (Hhead _ _ E). vm_compute in Hhead. discriminate.
  - intros t E. specialize (Hlast _ _ E). vm_compute in Hlast. discriminate.
  - intros l1 l2. now apply single_spaced_no_double.
Qed.

Lemma lower_tidy (l : list ascii) :
  single_spaced l -> map lower_char l = l.
Proof.
  intros H. apply single_spaced_allowed in H.
  induction H as [|c t Hc Ht IH]; simpl; [reflexivity|].
  rewrite IH. f_equal. destruct Hc as [A| ->]; [now apply alnum_lower | reflexivity].
Qed.

Lemma blank_tidy (l : list ascii) :
  single_spaced l -> map (fun c => if keeps c then c else " "%char) l = l.
Proof.
  intros H. apply single_spaced_allowed in H.
  induction H as [|c t Hc Ht IH]; simpl; [reflexivity|].
  rewrite IH. f_equal. destruct Hc as [A| ->]; [|reflexivity].
  unfold keeps. unfold is_alnum in A. now rewrite A.
Qed.

Lemma collapse_tidy (l : list ascii) : single_spaced l -> collapse l = l.
Proof.
  induction l as [|c t IH]; [reflexivity|].
  intros [Hc Ht]. rewrite collapse_cons, (IH Ht).
  destruct Hc as [A|[-> Hn]].
  - now rewrite (alnum_not_space c A).
  - change (py_isspace " ") with true. cbv iota.
    destruct t as [|b t']; [reflexivity|].
    now rewrite (alnum_not_space b Hn).
Qed.

Lemma trim_tidy (l : list ascii) :
  (forall c t, l = c :: t -> py_isspace c = false) ->
  (forall c t, l = (t ++ [c])%list -> py_isspace c = false) ->
  trim_chars l = l.
Proof.
  intros Hhead Hlast. unfold trim_chars.
  assert (E : drop_while py_isspace l = l).
  { destruct l as [|c t]; [reflexivity|]. simpl.
    now rewrite (Hhead c t eq_refl). }
  rewrite E.
  destruct (rev l) as [|c t] eqn:R.
  - simpl. apply (f_equal (@rev ascii)) in R. now rewrite rev_involutive in R.
  - assert (El : l = (rev t ++ [c])%list).
    { apply (f_equal (@rev ascii)) in R. now rewrite rev_involutive in R. }
    simpl. rewrite (Hlast c (rev t) El). simpl. now rewrite El.
Qed.

(** X18: [normalize] is idempotent: normalizing a text that is already
    normalized returns it unchanged. *)
Theorem normalize_idempotent (v : pyval) :
  normalize (PyStr (normalize v)) = normalize v.
Proof.
  destruct (normalize_tidy v) as [Hs [Hhead Hlast]].
  assert (E : list_ascii_of_string (normalize (PyStr (normalize v)))
              = list_ascii_of_string (normalize v)).
  { rewrite (chars_normalize (PyStr (normalize v))). cbn [py_str].
    rewrite (lower_tidy _ Hs), (trim_tidy _ Hhead Hlast), (blank_tidy _ Hs),
            (collapse_tidy _ Hs).
    now apply trim_tidy. }
  apply (f_equal string_of_list_ascii) in E.
  now rewrite !string_of_list_ascii_of_string in E.
Qed.

(** * The endpoint *)

Import Service.

Lemma filter_length_le {A : Type} (f : A -> bool) (l : list A) :
  py_len (filter f l) <= py_len l.
Proof.
  unfold py_len. pose proof (filter_length_le f l). lia.
Qed.

Lemma filter_disjoint_le {A : Type} (f g : A -> bool) (l : list A) :
  (forall x, In x l -> f x && g x = false) ->
  py_len (filter f l) + py_len (filter g l) <= py_len l.
Proof.
  induction l as [|x l IH]; intros H; [unfold py_len; simpl; lia|].
  specialize (IH (fun y Hy => H y (or_intror Hy))).
  specialize (H x (or_introl eq_refl)). cbn [filter].
  destruct (f x), (g x); try discriminate; rewrite ?py_len_cons; lia.
Qed.

Lemma filter_cover_ge {A : Type} (f g h : A -> bool) (l : list A) :
  (forall x, In x l -> f x || g x || h x = true) ->
  py_len l <= py_len (filter f l) + py_len (filter g l) + py_len (filter h l).
Proof.
  induction l as [|x l IH]; intros H; [unfold py_len; simpl; lia|].
  specialize (IH (fun y Hy => H y (or_intror Hy))).
  specialize (H x (or_introl eq_refl)). cbn [filter].
  pose proof (@py_len_cons A x l).
  destruct (f x), (g x), (h x); try discriminate; rewrite ?py_len_cons; lia.
Qed.

Section EndpointFacts.

Variable token_set_ratio : string -> string -> Z.
Variable argsort_desc : list Z -> list nat.
Variable parse_column_map : string -> parsed_map.
Variable read_csv : string -> parsed_file.
Variable read_excel : string -> parsed_file.
Variable exn_text : exn -> string.

Let endpoint :=
  run_deduplication token_set_ratio argsort_desc parse_column_map
                    read_csv read_excel exn_text.

(** A response with results comes from a run of the engine on a table that
    is not empty. *)
Lemma results_from_engine (uuids : uuid_source)
      (filename content column_map_json : string)
      (r : DeduplicationResponse) (res : Results) :
  endpoint uuids filename content column_map_json = Return r ->
  results r = Some res ->
  exists col_map df,
    parse_column_map column_map_json = Mapping col_map /\
    read_upload read_csv read_excel filename content = inr df /\
    df_empty df = false /\
    build_duplicate_df token_set_ratio argsort_desc uuids df col_map
      = Ok (duplicates res, block_stats (stats res)) /\
    stats res = make_stats (duplicates res) (block_stats (stats res)) /\
    duplicate_group_count res = py_len (duplicates res) /\
    total_potential_duplicates res
      = total_potential_duplicate_records (stats res) /\
    message r = "Deduplication process completed."%string /\
    error r = None.
Proof.
  unfold endpoint, run_deduplication.
  destruct (parse_column_map column_map_json) as [| |col_map]; try discriminate.
  destruct (read_upload read_csv read_excel filename content) as [raised|df] eqn:U.
  - unfold read_upload in U.
    destruct (endswith filename ".csv");
      [destruct (read_csv content); inversion U; subst; discriminate|].
    destruct (endswith filename ".xls" || endswith filename ".xlsx");
      [destruct (read_excel content)|]; inversion U; subst; discriminate.
  - destruct (df_empty df) eqn:Em;
      [intros E; inversion E; subst; discriminate|].
    destruct (build_duplicate_df token_set_ratio argsort_desc uuids df col_map)
      as [[dup_df bs]|e] eqn:B; [|destruct (is_ValueError e)];
      intros E; inversion E; subst; simpl; try discriminate.
    intros E'. inversion E'; subst. simpl.
    exists col_map, df. repeat split; auto.
Qed.

End EndpointFacts.



(** X20: in a completed response the statistics count the groups it lists:
    the group count and the total are the number of groups, the total of
    potential duplicates is the sum of their duplicate counts, no group is
    both high and medium confidence, and every group is counted in at least
    one of the three tiers, since a group that is not low-confidence
    averages at least 90. *)
Theorem endpoint_statistics
        (token_set_ratio : string -> string -> Z)
        (argsort_desc : list Z -> list nat)
        (parse_column_map : string -> parsed_map)
        (read_csv read_excel : string -> parsed_file)
        (exn_text : exn -> string) (uuids : uuid_source)
        (filename content column_map_json : string)
        (r : DeduplicationResponse) (res : Results) :
  run_deduplication token_set_ratio argsort_desc parse_column_map
                    read_csv read_excel exn_text
                    uuids filename content column_map_json = Return r ->
  results r = Some res ->
  let st := stats res in
  let total := total_master_records_with_duplicates st in
  duplicate_group_count res = total /\
  total = py_len (duplicates res) /\
  total_potential_duplicates res = py_sum (map DuplicateCount (duplicates res)) /\
  high_confidence_duplicates_groups st + medium_confidence_duplicates_groups st
    <= total /\
  low_confidence_duplicates_groups st <= total /\
  total <= high_confidence_duplicates_groups st
           + medium_confidence_duplicates_groups st
           + low_confidence_duplicates_groups st.
Proof.
  intros Hrun Hres st total.
  destruct (results_from_engine _ _ _ _ _ _ _ _ _ _ _ _ Hrun Hres)
    as [col_map [df [_ [_ [_ [B [Est [Ec [Et _]]]]]]]]].
  subst st total. rewrite Ec, Et, Est.
  cbn [make_stats total_master_records_with_duplicates
       total_potential_duplicate_records high_confidence_duplicates_groups
       medium_confidence_duplicates_groups low_confidence_duplicates_groups].
  repeat split.
  - apply filter_disjoint_le. intros g _.
    destruct (Z.leb_spec 98 (AvgSimilarity g)), (Z.ltb_spec (AvgSimilarity g) 98);
      simpl; try reflexivity; lia.
  - apply filter_length_le.
  - apply filter_cover_ge. intros g Hg.
    destruct (IsLowConfidenceGroup g) eqn:Low; [apply orb_true_r|].
    pose proof (confident_group_average _ _ _ _ _ _ _ _ B Hg Low) as H90.
    destruct (Z.leb_spec 98 (AvgSimilarity g)); [reflexivity|].
    destruct (Z.ltb_spec (AvgSimilarity g) 98); [|lia].
    destruct (Z.leb_spec 90 (AvgSimilarity g)); [reflexivity | lia].
Qed.

Lemma endpoint_statistics_witness :
  exists r res,
    Cases.sample_service "customers.csv" = Return r /\
    results r = Some res /\
    duplicate_group_count res = 2 /\
    duplicate_group_count res
      = total_master_records_with_duplicates (stats res) /\
    total_master_records_with_duplicates (stats res)
      = py_len (duplicates res) /\
    total_potential_duplicates res
      = py_sum (map DuplicateCount (duplicates res)) /\
    high_confidence_duplicates_groups (stats res)
      + medium_confidence_duplicates_groups (stats res)
      <= total_master_records_with_duplicates (stats res) /\
    low_confidence_duplicates_groups (stats res)
      <= total_master_records_with_duplicates (stats res) /\
    total_master_records_with_duplicates (stats res)
      <= high_confidence_duplicates_groups (stats res)
         + medium_confidence_duplicates_groups (stats res)
         + low_confidence_duplicates_groups (stats res).
Proof.
  eexists. eexists.
  split; [lazy; reflexivity|]. split; [reflexivity|]. split; [reflexivity|].
  eapply (endpoint_statistics
            Sample.sample_ratio Sample.sample_argsort Cases.parse_any
            Cases.read_any Cases.read_any Cases.exn_text_any Sample.uuids_a
            "customers.csv" EmptyString EmptyString).
  - lazy. reflexivity.
  - reflexivity.
Defined.



(** * What the engine looks at *)


Lemma series_get_not_selected (f : string -> pyval) (selected : list string)
      (c : string) :
  ~ In c selected -> series_get (map (fun c => (c, f c)) selected) c = None.
Proof.
  induction selected as [|x l IH]; simpl; [reflexivity|].
  intros H. destruct (String.eqb_spec x c) as [->|Hne].
  - exfalso. apply H. now left.
  - apply IH. intros Hin. apply H. now right.
Qed.


Section SameView.

Variable token_set_ratio : string -> string -> Z.
Variable col_map : DeduplicationColumnMap.








End SameView.




(** * When the engine succeeds *)



